(** * The Ansible [cmake] module (modules/cmake.py)

    A shallow embedding of the module's four functions
    ([find_root_cmake], [prepare_if_archive], [create_cmake_command], [main])
    over an explicit filesystem state, and the properties its specification
    states about them. *)

From stdpp Require Import base option list strings pretty gmap stringmap.

(** ** Python values used by the module *)

(** A [str]-or-[None] value: [src_dir], [cmake_dir] and the result of
    [prepare_if_archive] are such. *)
Definition truthy (v : option string) : bool :=
  match v with
  | None => false
  | Some s => negb (String.eqb s "")
  end.

(** ["%s" % v] for a [str]-or-[None] value. *)
Definition format_s (v : option string) : string :=
  match v with
  | None => "None"
  | Some s => s
  end.

(** A Python [dict] from [str] to [str]: its items in iteration (insertion)
    order.  A dict holds each key once, which theorems about iteration state
    as [NoDup (dict_keys d)]. *)
Definition dict : Type := list (string * string).

Definition dict_keys (d : dict) : list string := d.*1.

(** [d[k]]; [None] stands for [KeyError]. *)
Fixpoint dict_get (d : dict) (k : string) : option string :=
  match d with
  | [] => None
  | (k', v) :: d' => if String.eqb k' k then Some v else dict_get d' k
  end.

(** Truth value of an optional dict: [None] and [{}] are false. *)
Definition dict_truthy (d : option dict) : bool :=
  match d with
  | None | Some [] => false
  | Some (_ :: _) => true
  end.

(** [needle in haystack] on strings. *)
Fixpoint contains (haystack needle : string) : bool :=
  String.prefix needle haystack
  || match haystack with
     | EmptyString => false
     | String _ rest => contains rest needle
     end.

(** ** Command builder *)

(** One loop iteration of [create_cmake_command]:
    [command += " -D%s=%s" % (define, defines[define])]. *)
Definition add_define (defines : dict) (command define : string) : string :=
  match dict_get defines define with
  | Some value => command +:+ " -D" +:+ define +:+ "=" +:+ value
  | None => command (* KeyError; [define] is a key of [defines] *)
  end.

Definition create_cmake_command
    (cmake_path project_dir install_dir : string) (defines : option dict) : string :=
  let command := cmake_path in
  let command := command +:+ " -DCMAKE_INSTALL_PREFIX=" +:+ install_dir in
  let command :=
    if dict_truthy defines then
      match defines with
      | Some defines => foldl (add_define defines) command (dict_keys defines)
      | None => command
      end
    else command in
  let command := command +:+ " " +:+ project_dir in
  command.

(** The [-D<name>=<value>] segment of one mapping entry. *)
Definition define_flag (item : string * string) : string :=
  " -D" +:+ item.1 +:+ "=" +:+ item.2.

Definition define_flags (items : dict) : string :=
  foldr (λ item acc, define_flag item +:+ acc) "" items.

(** ** Filesystem

    What the module can observe of the filesystem: which paths are
    directories and which are regular files, whether a file can be opened,
    and what [tarfile] and [zipfile] read in it.  A directory tree is keyed
    by the path of its root and carries the names extracted into it; the
    module only ever creates and removes whole trees ([mkdtemp],
    [extractall], [rmtree]). *)

(** A member of a tar archive is written under the directory it is extracted
    into, or, when its name is absolute or climbs out with [..], at the path
    that name resolves to: [tarfile.extractall] is called with no filter. *)
Inductive member : Type :=
  | Inside (name : string)
  | Outside (path : string).

(** What an archive reader finds in a file it recognises: the members it can
    extract, all of them ([Sound]) or those that come before the place where
    the archive is truncated or corrupt ([Damaged]).  [tarfile.is_tarfile]
    looks at the first header only and [zipfile.is_zipfile] at the end
    record only, so both recognise damaged archives. *)
Inductive reading (A : Type) : Type :=
  | Sound (members : list A)
  | Damaged (members : list A).
Arguments Sound {A} members.
Arguments Damaged {A} members.

Definition reading_members {A} (r : reading A) : list A :=
  match r with Sound members | Damaged members => members end.

Definition damaged {A} (r : reading A) : bool :=
  match r with Sound _ => false | Damaged _ => true end.

(** A file is a tar archive when [tarfile.open] succeeds on it, a zip archive
    when [zipfile] finds its end record; the two readings are independent,
    and one file can be both.  [zipfile] strips what would take a member out
    of the directory, so its members are plain names. *)
Inductive node : Type :=
  | Dir (entries : list string)
  | File (tar : option (reading member)) (zip : option (reading string))
  | Unreadable.

Global Instance member_eq_dec : EqDecision member.
Proof. solve_decision. Defined.

Global Instance reading_eq_dec {A} `{EqDecision A} : EqDecision (reading A).
Proof. solve_decision. Defined.

Global Instance node_eq_dec : EqDecision node.
Proof. solve_decision. Defined.

(** A readable file whose readings are sound and whose tar members all stay
    inside the directory they are extracted into. *)
Definition archive_file (tar_members zip_members : option (list string)) : node :=
  File ((λ names, Sound (Inside <$> names)) <$> tar_members) (Sound <$> zip_members).

Abbreviation FS := (gmap string node).

(** [os.stat]: the empty pathname names nothing. *)
Definition stat (fs : FS) (path : string) : option node :=
  if String.eqb path "" then None else fs !! path.

(** What [os.path.isdir] and [os.path.isfile] answer on a path, and whether
    [tarfile.is_tarfile] and [zipfile.is_zipfile] answer [True] on it. *)
Definition isdir (fs : FS) (path : string) : bool :=
  match stat fs path with Some (Dir _) => true | _ => false end.

Definition isfile (fs : FS) (path : string) : bool :=
  match stat fs path with Some (File _ _) | Some Unreadable => true | _ => false end.

Definition is_tarfile (fs : FS) (path : string) : bool :=
  match stat fs path with Some (File (Some _) _) => true | _ => false end.

Definition is_zipfile (fs : FS) (path : string) : bool :=
  match stat fs path with Some (File _ (Some _)) => true | _ => false end.

(** A regular file that cannot be opened for reading. *)
Definition unreadable (fs : FS) (path : string) : bool :=
  match stat fs path with Some Unreadable => true | _ => false end.

Inductive exception : Type :=
  | TypeError
  | ValueError
  | FileNotFoundError
  | NotADirectoryError
  | IsADirectoryError
  | PermissionError
  | OSError
  | ReadError
  | BadZipFile.

(** How a run of the module ends: [module.exit_json], [module.fail_json]
    (both leave the process), the [fail_json] that [module.run_command]
    itself calls, with the error number as [rc], when it cannot start the
    process, or an exception nobody catches. *)
Inductive outcome : Type :=
  | ExitJson (changed : bool) (install_dir : string)
  | FailJson (msg : string)
  | CommandFailed (rc : Z) (msg : string)
  | Uncaught (exn : exception).

(** ** The host: what the module does not decide *)

(** How a call of [module.run_command] goes: the process runs and exits with
    a code and two captured streams, leaving the filesystem as it pleases;
    or it cannot be started ([OSError] from [Popen], which [run_command]
    turns into [fail_json]); or the command string cannot be split into
    words ([ValueError] from [shlex.split]). *)
Inductive process_end : Type :=
  | Exited (rc : Z) (out err : string) (after : FS)
  | NotStarted (errno : Z) (msg : string)
  | BadCommand.

(** [tempfile.mkdtemp] picks an unused, non-empty name; the temporary
    directory is taken to be there and writable.
    [run_process cmd cwd fs] is how the process started by [run_command]
    ends.  [rmtree_stuck fs path] is the error, if any, with which
    [shutil.rmtree] gives up on the directory tree at [path] (a read-only
    subdirectory, say), and the entries it leaves there. *)
Class Host : Type := {
  mkdtemp_name : FS → string;
  mkdtemp_name_fresh : ∀ fs, fs !! mkdtemp_name fs = None;
  mkdtemp_name_nonempty : ∀ fs, mkdtemp_name fs ≠ "";
  run_process : string → string → FS → process_end;
  rmtree_stuck : FS → string → option (exception * list string);
}.

(** ** Effects: filesystem state, early exit

    Besides the filesystem, the state keeps the history of what the run did,
    oldest first.  [Ran cmd cwd] records a call of [run_command], whether or
    not the process could be started. *)
Inductive event : Type :=
  | Created (path : string)
  | Extracted (dest : string) (members : list string)
  | Wrote (path : string)
  | Ran (cmd cwd : string)
  | Removed (path : string).

Abbreviation state := (FS * list event)%type.

Inductive step (A : Type) : Type :=
  | Ret (a : A)
  | Exit (o : outcome).
Arguments Ret {A} a.
Arguments Exit {A} o.

Definition M (A : Type) : Type := state → step A * state.

Definition ret {A} (a : A) : M A := λ st, (Ret a, st).

Definition bind {A B} (m : M A) (k : A → M B) : M B := λ st,
  match m st with
  | (Ret a, st') => k a st'
  | (Exit o, st') => (Exit o, st')
  end.

Declare Scope py_scope.
Delimit Scope py_scope with py.
Notation "x ← m ; k" := (bind m (λ x, k))
  (at level 20, m at level 100, k at level 200, only parsing) : py_scope.
Notation "' x ← m ; k" := (bind m (λ x, k))
  (at level 20, x pattern, m at level 100, k at level 200, only parsing) : py_scope.
Notation "m ;; k" := (bind m (λ _, k))
  (at level 100, k at level 200, only parsing, right associativity) : py_scope.
Local Open Scope py_scope.

Definition raise {A} (exn : exception) : M A := λ st, (Exit (Uncaught exn), st).

Definition exit_json {A} (changed : bool) (install_dir : string) : M A :=
  λ st, (Exit (ExitJson changed install_dir), st).

Definition fail_json {A} (msg : string) : M A :=
  λ st, (Exit (FailJson msg), st).

Definition os_path_isdir (path : string) : M bool :=
  λ '(fs, log), (Ret (isdir fs path), (fs, log)).

Definition os_path_isfile (path : string) : M bool :=
  λ '(fs, log), (Ret (isfile fs path), (fs, log)).

(** [tarfile.is_tarfile] opens the file: only a [TarError] is turned into
    [False], any [OSError] is raised. *)
Definition tarfile_is_tarfile (path : string) : M bool := λ '(fs, log),
  match stat fs path with
  | Some (File _ _) => ret (is_tarfile fs path) (fs, log)
  | Some Unreadable => raise PermissionError (fs, log)
  | Some (Dir _) => raise IsADirectoryError (fs, log)
  | None => raise FileNotFoundError (fs, log)
  end.

(** [zipfile.is_zipfile] swallows every [OSError]. *)
Definition zipfile_is_zipfile (path : string) : M bool :=
  λ '(fs, log), (Ret (is_zipfile fs path), (fs, log)).

Definition mkdtemp `{Host} : M string := λ '(fs, log),
  let name := mkdtemp_name fs in
  (Ret name, (<[name := Dir []]> fs, log ++ [Created name])).

(** Writing one member: under [dest], or at the path it resolves to, where
    it makes a new regular file or replaces the one that is there. *)
Definition write_member (dest : string) (m : member) (fs : FS) : exception + FS :=
  match m with
  | Inside name =>
      match stat fs dest with
      | Some (Dir entries) => inr (<[dest := Dir (entries ++ [name])]> fs)
      | Some _ => inl NotADirectoryError
      | None => inl FileNotFoundError
      end
  | Outside path =>
      match stat fs path with
      | Some (Dir _) => inl IsADirectoryError
      | _ => inr (<[path := File None None]> fs)
      end
  end.

(** Writing members in order until one fails: the error if any, the
    filesystem then, and the members written. *)
Fixpoint unpack (dest : string) (members : list member) (fs : FS)
    : option exception * FS * list member :=
  match members with
  | [] => (None, fs, [])
  | m :: rest =>
      match write_member dest m fs with
      | inl exn => (Some exn, fs, [])
      | inr fs' =>
          let '(error, fs'', written) := unpack dest rest fs' in
          (error, fs'', m :: written)
      end
  end.

Definition inside_names (members : list member) : list string :=
  omap (λ m, match m with Inside name => Some name | Outside _ => None end) members.

Definition outside_paths (members : list member) : list string :=
  omap (λ m, match m with Outside path => Some path | Inside _ => None end) members.

(** [extractall] of what an archive reader finds, into directory [dest];
    [broken] is the error the reader raises where a damaged archive ends. *)
Definition extract_into (r : reading member) (broken : exception) (dest : string)
    : M unit := λ '(fs, log),
  let '(error, fs', written) := unpack dest (reading_members r) fs in
  let log' := log ++ Extracted dest (inside_names written)
                     :: (Wrote <$> outside_paths written) in
  match error with
  | Some exn => raise exn (fs', log')
  | None => if damaged r then raise broken (fs', log') else (Ret (), (fs', log'))
  end.

(** [with tarfile.open(src) as tar: tar.extractall(dest)] *)
Definition tar_extractall (src dest : string) : M unit := λ '(fs, log),
  match stat fs src with
  | Some (File (Some r) _) => extract_into r ReadError dest (fs, log)
  | Some (File None _) => raise ReadError (fs, log)
  | Some Unreadable => raise PermissionError (fs, log)
  | Some (Dir _) => raise IsADirectoryError (fs, log)
  | None => raise FileNotFoundError (fs, log)
  end.

Definition zip_as_members (r : reading string) : reading member :=
  match r with
  | Sound names => Sound (Inside <$> names)
  | Damaged names => Damaged (Inside <$> names)
  end.

(** [with zipfile.ZipFile(src) as zip: zip.extractall(dest)] *)
Definition zip_extractall (src dest : string) : M unit := λ '(fs, log),
  match stat fs src with
  | Some (File _ (Some r)) => extract_into (zip_as_members r) BadZipFile dest (fs, log)
  | Some (File _ None) => raise BadZipFile (fs, log)
  | Some Unreadable => raise PermissionError (fs, log)
  | Some (Dir _) => raise IsADirectoryError (fs, log)
  | None => raise FileNotFoundError (fs, log)
  end.

(** [shutil.rmtree path]: errors are raised, not ignored. *)
Definition rmtree `{Host} (path : option string) : M unit := λ '(fs, log),
  match path with
  | None => raise TypeError (fs, log)
  | Some path =>
      match stat fs path with
      | Some (Dir _) =>
          match rmtree_stuck fs path with
          | None => (Ret (), (delete path fs, log ++ [Removed path]))
          | Some (exn, remaining) => raise exn (<[path := Dir remaining]> fs, log)
          end
      | Some _ => raise NotADirectoryError (fs, log)
      | None => raise FileNotFoundError (fs, log)
      end
  end.

(** [module.run_command(cmd, check_rc=False, cwd=cwd)] *)
Definition run_command `{Host} (cmd cwd : string) : M (Z * string * string) :=
  λ '(fs, log),
  match run_process cmd cwd fs with
  | Exited rc out err after => (Ret (rc, out, err), (after, log ++ [Ran cmd cwd]))
  | NotStarted errno msg =>
      (Exit (CommandFailed errno msg), (fs, log ++ [Ran cmd cwd]))
  | BadCommand => raise ValueError (fs, log ++ [Ran cmd cwd])
  end.

(** ** The module's functions *)

Definition find_root_cmake (src_dir : option string) : M (option string) :=
  ret src_dir.

Definition prepare_if_archive `{Host} (src : string) : M (option string) :=
  is_dir ← os_path_isdir src;
  if is_dir then ret (Some src)
  else
    is_tar ← (is_file ← os_path_isfile src;
              if is_file then tarfile_is_tarfile src else ret false);
    if is_tar then
      result ← mkdtemp;
      tar_extractall src result;;
      ret (Some result)
    else
      is_zip ← (is_file ← os_path_isfile src;
                if is_file then zipfile_is_zipfile src else ret false);
      if is_zip then
        result ← mkdtemp;
        zip_extractall src result;;
        ret (Some result)
      else ret None.

(** [module.params] *)
Record params : Type := {
  src : string;
  defines : option dict;
  install_dir : string;
  cmake : string;
}.

Definition input_error : string :=
  "Source is not a directory or known archive format".

Definition location_error : string :=
  "Could not find CMake root directory".

Definition main_body `{Host} (p : params) : M Empty_set :=
  src_dir ← prepare_if_archive (src p);
  (if negb (truthy src_dir) then fail_json input_error else ret ());;
  cmake_dir ← find_root_cmake src_dir;
  (if negb (truthy cmake_dir) then fail_json location_error else ret ());;
  build_dir ← mkdtemp;
  let cmake_command :=
    create_cmake_command (cmake p) (format_s cmake_dir) (install_dir p) (defines p) in
  '(rc, out, err) ← run_command cmake_command build_dir;
  (if bool_decide (rc ≠ 0%Z) then
     (if bool_decide (src_dir ≠ Some (src p)) then rmtree src_dir else ret ());;
     rmtree (Some build_dir);;
     fail_json ("Failed to generate build files, exit code " +:+ err)
   else ret ());;
  '(rc, out, err) ← run_command "make install" build_dir;
  (if bool_decide (rc ≠ 0%Z) then
     (if bool_decide (src_dir ≠ Some (src p)) then rmtree src_dir else ret ());;
     rmtree (Some build_dir);;
     fail_json ("Failed to generate build files, exit code " +:+ err)
   else ret ());;
  (if bool_decide (src_dir ≠ Some (src p)) then rmtree src_dir else ret ());;
  rmtree (Some build_dir);;
  exit_json true (install_dir p).

(** A run of the module: the result it reports, the filesystem it leaves and
    what it did on the way. *)
Record run : Type := Run {
  result : outcome;
  files_after : FS;
  history : list event;
}.

Definition main `{Host} (p : params) (fs : FS) : run :=
  match main_body p (fs, []) with
  | (Exit o, (fs', log)) => Run o fs' log
  | (Ret nothing, _) => match nothing with end
  end.

(** ** Names for parts of a run, to state its properties with *)

(** The message of both failure branches of [main], for the diagnostic
    stream [err] of the failing process. *)
Definition build_failure (err : string) : string :=
  "Failed to generate build files, exit code " +:+ err.

(** The reading [prepare_if_archive] extracts from a file, tar before zip,
    with the error its reader raises where a damaged archive ends. *)
Definition used_reading (fs : FS) (path : string)
    : option (reading member * exception) :=
  match stat fs path with
  | Some (File (Some r) _) => Some (r, ReadError)
  | Some (File None (Some r)) => Some (zip_as_members r, BadZipFile)
  | _ => None
  end.

(** An archive branch of [prepare_if_archive], in one expression. *)
Definition extraction `{Host} (r : reading member) (broken : exception) (st : state)
    : step (option string) * state :=
  let d := mkdtemp_name st.1 in
  let '(error, fs', written) := unpack d (reading_members r) (<[d := Dir []]> st.1) in
  (match error with
   | Some exn => Exit (Uncaught exn)
   | None => if damaged r then Exit (Uncaught broken) else Ret (Some d)
   end,
   (fs', st.2 ++ Created d :: Extracted d (inside_names written)
                :: (Wrote <$> outside_paths written))).

(** The two statements that come before each exit of [main] once the build
    directory exists. *)
Definition cleanup `{Host} (src_dir : option string) (src build_dir : string) : M unit :=
  (if bool_decide (src_dir ≠ Some src) then rmtree src_dir else ret ());;
  rmtree (Some build_dir).

(** Whether these two statements raise nothing on filesystem [fs]. *)
Definition cleanup_ok `{Host} (src_dir : option string) (src build_dir : string)
    (fs : FS) : bool :=
  match cleanup src_dir src build_dir (fs, []) with
  | (Ret _, _) => true
  | (Exit _, _) => false
  end.

(** A run that ends with result [o] once the clean-up is through, or with
    what the clean-up raises. *)
Definition after_cleanup `{Host} (o : outcome) (src_dir : option string)
    (src build_dir : string) (st : state) : run :=
  match cleanup src_dir src build_dir st with
  | (Ret _, (fs', log')) => Run o fs' log'
  | (Exit e, (fs', log')) => Run e fs' log'
  end.

(** [main] from the call of the configure process on, in one expression. *)
Definition build `{Host} (p : params) (src_dir build_dir : string) (st : state) : run :=
  let configure := create_cmake_command (cmake p) src_dir (install_dir p) (defines p) in
  match run_process configure build_dir st.1 with
  | NotStarted errno msg =>
      Run (CommandFailed errno msg) st.1 (st.2 ++ [Ran configure build_dir])
  | BadCommand => Run (Uncaught ValueError) st.1 (st.2 ++ [Ran configure build_dir])
  | Exited rc out err fs3 =>
      let log3 := st.2 ++ [Ran configure build_dir] in
      if bool_decide (rc ≠ 0%Z) then
        after_cleanup (FailJson (build_failure err)) (Some src_dir) (src p) build_dir
          (fs3, log3)
      else
        match run_process "make install" build_dir fs3 with
        | NotStarted errno msg =>
            Run (CommandFailed errno msg) fs3 (log3 ++ [Ran "make install" build_dir])
        | BadCommand =>
            Run (Uncaught ValueError) fs3 (log3 ++ [Ran "make install" build_dir])
        | Exited rc' out' err' fs4 =>
            let log4 := log3 ++ [Ran "make install" build_dir] in
            after_cleanup
              (if bool_decide (rc' ≠ 0%Z) then FailJson (build_failure err')
               else ExitJson true (install_dir p))
              (Some src_dir) (src p) build_dir (fs4, log4)
        end
  end.

(** The processes the host runs leave the entry at [path] as it is. *)
Definition spares `{Host} (path : string) : Prop :=
  ∀ cmd cwd fs rc out err after,
    run_process cmd cwd fs = Exited rc out err after → after !! path = fs !! path.

(** ** Scripted hosts and a sample filesystem, to run the module on *)

(** What a scripted host answers: how the configure and the install process
    end on the filesystem they start on, and where [rmtree] gets stuck. *)
Record script : Type := {
  configure_end : FS → process_end;
  install_end : FS → process_end;
  stuck : FS → string → option (exception * list string);
}.

(** Temporary names [/tmp/tmp], [/tmp/tmp0], [/tmp/tmp1], ... *)
Program Definition host_of (s : script) : Host := {|
  mkdtemp_name fs := fresh_string "/tmp/tmp" (<["" := Dir []]> fs);
  run_process cmd cwd fs :=
    if String.eqb cmd "make install" then install_end s fs else configure_end s fs;
  rmtree_stuck := stuck s;
|}.
Next Obligation.
  intros _ fs.
  pose proof (fresh_string_fresh (<["" := Dir []]> fs) "/tmp/tmp") as Hfresh.
  by apply lookup_insert_None in Hfresh as [? _].
Qed.
Next Obligation.
  intros _ fs Hempty.
  pose proof (fresh_string_fresh (<["" := Dir []]> fs) "/tmp/tmp") as Hfresh.
  apply lookup_insert_None in Hfresh as [_ Hne]. by apply Hne.
Qed.

(** The host on which both processes run, exit as scripted and leave the
    filesystem alone, and [rmtree] never gets stuck. *)
Definition scripted_host (configure install : Z * string * string) : Host :=
  host_of {|
    configure_end fs := Exited configure.1.1 configure.1.2 configure.2 fs;
    install_end fs := Exited install.1.1 install.1.2 install.2 fs;
    stuck _ _ := None;
  |}.

(** A host on which the configure executable is not there to start, one on
    which [rmtree] cannot empty the directory an archive was extracted into,
    and one on which the install process writes the install directory. *)
Definition missing_cmake_host : Host :=
  host_of {|
    configure_end _ := NotStarted 2 "[Errno 2] No such file or directory: b'/opt/cmake'";
    install_end fs := Exited 0 "" "" fs;
    stuck _ _ := None;
  |}.

Definition stuck_host : Host :=
  host_of {|
    configure_end fs := Exited 1 "" "CMake Error" fs;
    install_end fs := Exited 0 "" "" fs;
    stuck _ path :=
      if String.eqb path "/tmp/tmp" then Some (PermissionError, ["main.c"]) else None;
  |}.

Definition installing_host : Host :=
  host_of {|
    configure_end fs := Exited 0 "" "" fs;
    install_end fs := Exited 0 "" "" (<["/tmp/out" := Dir ["bin"]]> fs);
    stuck _ _ := None;
  |}.

Definition sample_fs : FS :=
  <["/tmp/proj" := Dir ["CMakeLists.txt"]]>
  (<["/tmp/proj.tar.gz" := archive_file (Some ["CMakeLists.txt"; "main.c"]) None]>
  (<["/tmp/proj.zip" := archive_file None (Some ["CMakeLists.txt"; "main.c"])]>
  (<["/tmp/polyglot" := archive_file (Some ["from-tar"]) (Some ["from-zip"])]>
  (<["/tmp/cut.tar" := File (Some (Damaged [Inside "CMakeLists.txt"])) None]>
  (<["/tmp/cut.zip" := File None (Some (Damaged ["CMakeLists.txt"]))]>
  (<["/tmp/slip.tar" := File (Some (Sound [Inside "CMakeLists.txt";
                                           Outside "/tmp/notes.txt"])) None]>
  (<["/tmp/secret" := Unreadable]>
  (<["/tmp/notes.txt" := File None None]> ∅)))))))).

Definition sample_params (src : string) : params :=
  {| src := src; defines := None; install_dir := "/tmp/out"; cmake := "cmake" |}.

(** * Properties *)

(** ** Strings *)

Local Arguments String.append !_ _ / : simpl nomatch.

Lemma string_app_assoc (s1 s2 s3 : string) :
  (s1 +:+ s2) +:+ s3 = s1 +:+ s2 +:+ s3.
Proof. induction s1 as [|c s1 IH]; cbn; [done|by f_equal]. Qed.

Lemma string_app_nil_r (s : string) : s +:+ "" = s.
Proof. induction s as [|c s IH]; cbn; [done|by f_equal]. Qed.

Lemma prefix_app (needle rest : string) :
  String.prefix needle (needle +:+ rest) = true.
Proof.
  induction needle as [|c needle IH]; simpl.
  - by destruct rest.
  - destruct (Ascii.ascii_dec c c); [apply IH|done].
Qed.

Lemma prefix_refl (s : string) : String.prefix s s = true.
Proof. rewrite <-(string_app_nil_r s) at 2. apply prefix_app. Qed.

Lemma contains_here (haystack needle : string) :
  String.prefix needle haystack = true → contains haystack needle = true.
Proof. intros Hprefix. destruct haystack; cbn [contains]; by rewrite Hprefix. Qed.

Lemma contains_app_r (before needle : string) :
  contains (before +:+ needle) needle = true.
Proof.
  induction before as [|c before IH]; simpl.
  - apply contains_here, prefix_refl.
  - rewrite IH. apply orb_true_r.
Qed.

(** ** Command builder *)

Lemma dict_get_item (d : dict) (k v : string) :
  NoDup (dict_keys d) → (k, v) ∈ d → dict_get d k = Some v.
Proof.
  unfold dict_keys. induction d as [|[k' v'] d IH]; simpl.
  - intros _ Hin. by apply elem_of_nil in Hin.
  - intros [Hfresh Hnodup]%NoDup_cons [Heq|Hin]%elem_of_cons.
    + simplify_eq. by rewrite String.eqb_refl.
    + destruct (String.eqb_spec k' k) as [->|_]; [|by apply IH].
      destruct Hfresh. apply list_elem_of_fmap. by exists (k, v).
Qed.

(** The loop over the keys appends the segments of the entries it visits, in
    the order it visits them. *)
Lemma foldl_add_define (defines items : dict) (command : string) :
  (∀ item, item ∈ items → dict_get defines item.1 = Some item.2) →
  foldl (add_define defines) command (dict_keys items)
  = command +:+ define_flags items.
Proof.
  unfold dict_keys. revert command.
  induction items as [|[k v] items IH]; intros command Hget.
  - cbn [fmap list_fmap foldl define_flags foldr]. by rewrite string_app_nil_r.
  - cbn [fmap list_fmap foldl define_flags foldr fst].
    rewrite IH by (intros item Hin; apply Hget; by right).
    pose proof (Hget (k, v) ltac:(left)) as Hk. cbn [fst snd] in Hk.
    unfold add_define. rewrite Hk.
    unfold define_flag. cbn [fst snd]. by rewrite !string_app_assoc.
Qed.

(** C3: with a defines mapping, the command is the tool path, the
    install-prefix flag set to the install directory, one [-D<name>=<value>]
    segment per entry of the mapping in iteration order, and the project
    directory last.  (A mapping holds each key once; the empty mapping adds
    no segment.) *)
Theorem create_cmake_command_defines
    (cmake_path project_dir install_dir : string) (defines : dict) :
  NoDup (dict_keys defines) →
  create_cmake_command cmake_path project_dir install_dir (Some defines)
  = cmake_path +:+ " -DCMAKE_INSTALL_PREFIX=" +:+ install_dir
    +:+ define_flags defines +:+ " " +:+ project_dir.
Proof.
  intros Hnodup. unfold create_cmake_command.
  destruct defines as [|item defines]; simpl dict_truthy; cbv iota.
  - simpl. by rewrite !string_app_assoc.
  - rewrite foldl_add_define.
    + by rewrite !string_app_assoc.
    + intros [k v] Hin. by apply dict_get_item.
Qed.

(** The specification's example: tool [cmake], project [/src], install
    directory [/opt/x], defines [{FOO: "1", BAR: "2"}]. *)
Lemma create_cmake_command_defines_example :
  create_cmake_command "cmake" "/src" "/opt/x" (Some [("FOO", "1"); ("BAR", "2")])
  = "cmake -DCMAKE_INSTALL_PREFIX=/opt/x -DFOO=1 -DBAR=2 /src".
Proof.
  etrans.
  - apply create_cmake_command_defines.
    compute_done.
  - reflexivity.
Defined.

(** C4: without a defines mapping the command has no [-D<name>=<value>]
    segment: the tool path, the install-prefix flag and the project
    directory, as in [cmake -DCMAKE_INSTALL_PREFIX=/opt/x /src]. *)
Theorem create_cmake_command_no_defines
    (cmake_path project_dir install_dir : string) :
  create_cmake_command cmake_path project_dir install_dir None
  = cmake_path +:+ " -DCMAKE_INSTALL_PREFIX=" +:+ install_dir +:+ " " +:+ project_dir
  ∧ create_cmake_command "cmake" "/src" "/opt/x" None
    = "cmake -DCMAKE_INSTALL_PREFIX=/opt/x /src".
Proof.
  split; [|reflexivity].
  unfold create_cmake_command. simpl. by rewrite !string_app_assoc.
Qed.

(** ** Filesystem *)

Lemma stat_Some (fs : FS) (path : string) (n : node) :
  stat fs path = Some n → path ≠ "" ∧ fs !! path = Some n.
Proof.
  unfold stat. destruct (String.eqb_spec path "") as [->|Hne]; [done|].
  by intros ->.
Qed.

Lemma stat_lookup (fs : FS) (path : string) :
  path ≠ "" → stat fs path = fs !! path.
Proof.
  intros Hne. unfold stat. by destruct (String.eqb_spec path "").
Qed.

Lemma stat_insert_eq (fs : FS) (path : string) (n : node) :
  path ≠ "" → stat (<[path := n]> fs) path = Some n.
Proof. intros Hne. by rewrite stat_lookup, lookup_insert_eq. Qed.

Lemma stat_insert_ne (fs : FS) (path path' : string) (n : node) :
  path ≠ path' → stat (<[path := n]> fs) path' = stat fs path'.
Proof.
  intros Hne. unfold stat. destruct (String.eqb path' ""); [done|].
  by rewrite lookup_insert_ne.
Qed.

Lemma stat_delete_ne (fs : FS) (path path' : string) :
  path ≠ path' → stat (delete path fs) path' = stat fs path'.
Proof.
  intros Hne. unfold stat. destruct (String.eqb path' ""); [done|].
  by rewrite lookup_delete_ne.
Qed.

Lemma isdir_true (fs : FS) (path : string) :
  isdir fs path = true → path ≠ "" ∧ ∃ entries, fs !! path = Some (Dir entries).
Proof.
  unfold isdir.
  destruct (stat fs path) as [[entries|tar zip|]|] eqn:Hstat; try done.
  apply stat_Some in Hstat as [??]. eauto.
Qed.

Lemma isdir_stat (fs : FS) (path : string) :
  isdir fs path = true → ∃ entries, stat fs path = Some (Dir entries).
Proof.
  unfold isdir. destruct (stat fs path) as [[entries|tar zip|]|]; try done. eauto.
Qed.

Lemma truthy_Some (s : string) : s ≠ "" → truthy (Some s) = true.
Proof. intros Hne. simpl. by destruct (String.eqb_spec s ""). Qed.

(** ** Extraction *)

Lemma inside_names_fmap (names : list string) :
  inside_names (Inside <$> names) = names.
Proof.
  unfold inside_names. induction names as [|name names IH]; [done|].
  cbn. by rewrite IH.
Qed.

Lemma outside_paths_fmap (names : list string) :
  outside_paths (Inside <$> names) = [].
Proof.
  unfold outside_paths. induction names as [|name names IH]; [done|].
  cbn. by rewrite IH.
Qed.

(** Members that all stay inside go into the entries of the directory. *)
Lemma unpack_inside (dest : string) (names entries : list string) (fs : FS) :
  stat fs dest = Some (Dir entries) →
  unpack dest (Inside <$> names) fs
  = (None, <[dest := Dir (entries ++ names)]> fs, Inside <$> names).
Proof.
  revert entries fs. induction names as [|name names IH]; intros entries fs Hstat.
  - cbn. rewrite app_nil_r.
    apply stat_Some in Hstat as [_ Hlookup]. by rewrite insert_id.
  - pose proof (stat_Some _ _ _ Hstat) as [Hne _].
    cbn [fmap list_fmap unpack write_member]. rewrite Hstat.
    rewrite (IH (entries ++ [name])) by (by apply stat_insert_eq).
    by rewrite insert_insert_eq, <-app_assoc.
Qed.

Lemma write_member_effects (dest : string) (m : member) (fs fs' : FS) :
  write_member dest m fs = inr fs' →
  (∀ q, isdir fs q = true → isdir fs' q = true)
  ∧ (∀ q, is_Some (fs !! q) → is_Some (fs' !! q))
  ∧ (∀ q, fs' !! q ≠ fs !! q → q = dest ∨ m = Outside q).
Proof.
  destruct m as [name|path]; cbn.
  - destruct (stat fs dest) as [[entries|tar zip|]|] eqn:Hstat; try done.
    intros [= <-]. pose proof (stat_Some _ _ _ Hstat) as [Hne Hlookup].
    split; [|split].
    + intros q Hq. destruct (decide (dest = q)) as [<-|Hdq].
      * unfold isdir. by rewrite stat_insert_eq.
      * unfold isdir. by rewrite stat_insert_ne.
    + intros q Hq. destruct (decide (dest = q)) as [<-|Hdq].
      * rewrite lookup_insert_eq. eauto.
      * by rewrite lookup_insert_ne.
    + intros q Hq. destruct (decide (dest = q)) as [<-|Hdq]; [by left|].
      by rewrite lookup_insert_ne in Hq.
  - destruct (stat fs path) as [[entries|tar zip|]|] eqn:Hstat; try done;
      intros [= <-]; (split; [|split]).
    all: try (intros q Hq; destruct (decide (path = q)) as [<-|Hpq];
              [rewrite lookup_insert_eq; eauto|by rewrite lookup_insert_ne]).
    all: try (intros q Hq; destruct (decide (path = q)) as [<-|Hpq]; [by right|];
              by rewrite lookup_insert_ne in Hq).
    all: intros q Hq; destruct (decide (path = q)) as [<-|Hpq];
      [unfold isdir in Hq; by rewrite Hstat in Hq
      |unfold isdir; by rewrite stat_insert_ne].
Qed.

(** Extraction adds and overwrites; it removes no entry, turns no directory
    into something else, and outside the directory it extracts into it
    touches only the paths its escaping members resolve to. *)
Lemma unpack_effects (dest : string) (members written : list member)
    (fs fs' : FS) (error : option exception) :
  unpack dest members fs = (error, fs', written) →
  (∀ q, isdir fs q = true → isdir fs' q = true)
  ∧ (∀ q, is_Some (fs !! q) → is_Some (fs' !! q))
  ∧ (∀ q, fs' !! q ≠ fs !! q → q = dest ∨ Outside q ∈ members).
Proof.
  revert written fs fs' error.
  induction members as [|m members IH]; intros written fs fs' error; cbn.
  - by intros [= <- <- <-].
  - destruct (write_member dest m fs) as [exn|fs1] eqn:Hwrite.
    { by intros [= <- <- <-]. }
    destruct (unpack dest members fs1) as [[error1 fs2] written1] eqn:Hrest.
    intros [= <- <- <-].
    apply write_member_effects in Hwrite as (Hdir1 & Hsome1 & Hframe1).
    apply IH in Hrest as (Hdir2 & Hsome2 & Hframe2).
    split; [by auto|]. split; [by auto|].
    intros q Hq. destruct (decide (fs1 !! q = fs !! q)) as [Heq|Hneq].
    + rewrite <-Heq in Hq. destruct (Hframe2 q Hq) as [?|?]; [by left|].
      right. by right.
    + destruct (Hframe1 q Hneq) as [?|Hm]; [by left|]. subst m. right. by left.
Qed.

(** ** Running a sequence of effects *)

Lemma bind_ret_step {A B} (m : M A) (k : A → M B) (st st' : state) (a : A) :
  m st = (Ret a, st') → bind m k st = k a st'.
Proof. intros Hm. unfold bind. by rewrite Hm. Qed.

Lemma bind_exit_step {A B} (m : M A) (k : A → M B) (st st' : state) (o : outcome) :
  m st = (Exit o, st') → bind m k st = (Exit o, st').
Proof. intros Hm. unfold bind. by rewrite Hm. Qed.

Lemma bind_assoc {A B C} (m : M A) (f : A → M B) (g : B → M C) (st : state) :
  bind (bind m f) g st = bind m (λ a, bind (f a) g) st.
Proof. unfold bind. by destruct (m st) as [[a|o] st']. Qed.

(** Run the first effect of the sequence in the goal, [tac] proving what it
    returns. *)
Ltac run_by tac := erewrite bind_ret_step by tac; cbv beta iota.
Ltac run := run_by ltac:(reflexivity).

(** [os.path.isfile(src) and tarfile.is_tarfile(src)]: the guard keeps
    [is_tarfile] from raising on a path that is no regular file; on a file
    that cannot be opened it raises. *)
Lemma isfile_and_is_tarfile (st : state) (src : string) :
  bind (os_path_isfile src)
    (λ is_file : bool, if is_file then tarfile_is_tarfile src else ret false) st
  = (if unreadable st.1 src then Exit (Uncaught PermissionError)
     else Ret (is_tarfile st.1 src), st).
Proof.
  destruct st as [fs log].
  unfold bind, os_path_isfile, tarfile_is_tarfile, ret, raise, isfile, is_tarfile,
    unreadable.
  cbn [fst]. destruct (stat fs src) as [[entries|tar zip|]|] eqn:Hstat;
    cbv beta iota; by rewrite ?Hstat.
Qed.

Lemma isfile_and_is_zipfile (st : state) (src : string) :
  bind (os_path_isfile src)
    (λ is_file : bool, if is_file then zipfile_is_zipfile src else ret false) st
  = (Ret (is_zipfile st.1 src), st).
Proof.
  destruct st as [fs log].
  unfold bind, os_path_isfile, zipfile_is_zipfile, ret, isfile, is_zipfile.
  cbn [fst]. destruct (stat fs src) as [[entries|tar zip|]|] eqn:Hstat;
    cbv beta iota; by rewrite ?Hstat.
Qed.

Section module.
Context `{Host}.

(** A directory made by [mkdtemp] is not one that was there before. *)
Lemma mkdtemp_name_ne (fs : FS) (path : string) :
  is_Some (fs !! path) → mkdtemp_name fs ≠ path.
Proof. intros [n Hn] <-. by rewrite mkdtemp_name_fresh in Hn. Qed.

(** *** [prepare_if_archive], branch by branch *)

Lemma prepare_if_archive_dir (fs : FS) (log : list event) (src : string) :
  isdir fs src = true →
  prepare_if_archive src (fs, log) = (Ret (Some src), (fs, log)).
Proof.
  intros Hdir. unfold prepare_if_archive.
  run. by rewrite Hdir.
Qed.

Lemma prepare_if_archive_other (fs : FS) (log : list event) (src : string) :
  isdir fs src = false → unreadable fs src = false →
  is_tarfile fs src = false → is_zipfile fs src = false →
  prepare_if_archive src (fs, log) = (Ret None, (fs, log)).
Proof.
  intros Hdir Hread Htar Hzip. unfold prepare_if_archive.
  run. rewrite Hdir.
  run_by ltac:(rewrite isfile_and_is_tarfile; cbn [fst]; by rewrite Hread).
  rewrite Htar.
  run_by ltac:(apply isfile_and_is_zipfile). cbn [fst]. by rewrite Hzip.
Qed.

Lemma prepare_if_archive_unreadable (fs : FS) (log : list event) (src : string) :
  unreadable fs src = true →
  prepare_if_archive src (fs, log) = (Exit (Uncaught PermissionError), (fs, log)).
Proof.
  intros Hread. unfold prepare_if_archive.
  assert (isdir fs src = false) as Hdir.
  { revert Hread. unfold unreadable, isdir.
    by destruct (stat fs src) as [[entries|tar zip|]|]. }
  run. rewrite Hdir.
  by erewrite bind_exit_step
    by (rewrite isfile_and_is_tarfile; cbn [fst]; by rewrite Hread).
Qed.

Lemma extract_into_fresh (r : reading member) (broken : exception)
    (fs : FS) (log : list event) :
  bind (extract_into r broken (mkdtemp_name fs)) (λ _, ret (Some (mkdtemp_name fs)))
    (<[mkdtemp_name fs := Dir []]> fs, log ++ [Created (mkdtemp_name fs)])
  = extraction r broken (fs, log).
Proof.
  unfold bind, extract_into, extraction, raise, ret. cbn [fst snd].
  destruct (unpack _ _ _) as [[error fs'] written].
  rewrite <-app_assoc. cbn [app].
  destruct error as [exn|]; [done|]. by destruct (damaged r).
Qed.

Lemma prepare_if_archive_tar (fs : FS) (log : list event) (src : string)
    (r : reading member) (zip : option (reading string)) :
  stat fs src = Some (File (Some r) zip) →
  prepare_if_archive src (fs, log) = extraction r ReadError (fs, log).
Proof.
  intros Hstat. pose proof (stat_Some _ _ _ Hstat) as [_ Hlookup].
  unfold prepare_if_archive.
  run. unfold isdir at 1. rewrite Hstat.
  run_by ltac:(rewrite isfile_and_is_tarfile; cbn [fst]; unfold unreadable;
               by rewrite Hstat).
  unfold is_tarfile at 1. rewrite Hstat.
  run. rewrite <-extract_into_fresh.
  assert (tar_extractall src (mkdtemp_name fs)
            (<[mkdtemp_name fs := Dir []]> fs, log ++ [Created (mkdtemp_name fs)])
          = extract_into r ReadError (mkdtemp_name fs)
              (<[mkdtemp_name fs := Dir []]> fs, log ++ [Created (mkdtemp_name fs)]))
    as Heq.
  { unfold tar_extractall.
    rewrite stat_insert_ne by (apply mkdtemp_name_ne; eauto). by rewrite Hstat. }
  unfold bind. by rewrite Heq.
Qed.

Lemma prepare_if_archive_zip (fs : FS) (log : list event) (src : string)
    (r : reading string) :
  stat fs src = Some (File None (Some r)) →
  prepare_if_archive src (fs, log) = extraction (zip_as_members r) BadZipFile (fs, log).
Proof.
  intros Hstat. pose proof (stat_Some _ _ _ Hstat) as [_ Hlookup].
  unfold prepare_if_archive.
  run. unfold isdir at 1. rewrite Hstat.
  run_by ltac:(rewrite isfile_and_is_tarfile; cbn [fst]; unfold unreadable;
               by rewrite Hstat).
  unfold is_tarfile at 1. rewrite Hstat.
  run_by ltac:(apply isfile_and_is_zipfile).
  cbn [fst]. unfold is_zipfile at 1. rewrite Hstat.
  run. rewrite <-extract_into_fresh.
  assert (zip_extractall src (mkdtemp_name fs)
            (<[mkdtemp_name fs := Dir []]> fs, log ++ [Created (mkdtemp_name fs)])
          = extract_into (zip_as_members r) BadZipFile (mkdtemp_name fs)
              (<[mkdtemp_name fs := Dir []]> fs, log ++ [Created (mkdtemp_name fs)]))
    as Heq.
  { unfold zip_extractall.
    rewrite stat_insert_ne by (apply mkdtemp_name_ne; eauto). by rewrite Hstat. }
  unfold bind. by rewrite Heq.
Qed.

(** Every source is a directory, a file that cannot be opened, a file one of
    the readers recognises, or none of these; and [prepare_if_archive] does
    accordingly. *)
Lemma prepare_if_archive_cases (fs : FS) (log : list event) (src : string) :
  (isdir fs src = true
   ∧ prepare_if_archive src (fs, log) = (Ret (Some src), (fs, log)))
  ∨ (unreadable fs src = true ∧ isdir fs src = false
     ∧ prepare_if_archive src (fs, log) = (Exit (Uncaught PermissionError), (fs, log)))
  ∨ (∃ r broken,
       used_reading fs src = Some (r, broken)
       ∧ isdir fs src = false ∧ unreadable fs src = false
       ∧ (is_tarfile fs src = true ∨ is_zipfile fs src = true)
       ∧ is_Some (fs !! src)
       ∧ prepare_if_archive src (fs, log) = extraction r broken (fs, log))
  ∨ (isdir fs src = false ∧ unreadable fs src = false
     ∧ is_tarfile fs src = false ∧ is_zipfile fs src = false
     ∧ prepare_if_archive src (fs, log) = (Ret None, (fs, log))).
Proof.
  destruct (stat fs src) as [[entries|[r|] [z|]|]|] eqn:Hstat.
  - left. assert (isdir fs src = true) by (unfold isdir; by rewrite Hstat).
    eauto using prepare_if_archive_dir.
  - right; right; left. exists r, ReadError.
    pose proof (stat_Some _ _ _ Hstat) as [_ Hlookup].
    unfold used_reading, isdir, unreadable, is_tarfile. rewrite Hstat.
    repeat split; eauto using prepare_if_archive_tar.
  - right; right; left. exists r, ReadError.
    pose proof (stat_Some _ _ _ Hstat) as [_ Hlookup].
    unfold used_reading, isdir, unreadable, is_tarfile. rewrite Hstat.
    repeat split; eauto using prepare_if_archive_tar.
  - right; right; left. exists (zip_as_members z), BadZipFile.
    pose proof (stat_Some _ _ _ Hstat) as [_ Hlookup].
    unfold used_reading, isdir, unreadable, is_zipfile. rewrite Hstat.
    repeat split; eauto using prepare_if_archive_zip.
  - right; right; right.
    assert (isdir fs src = false ∧ unreadable fs src = false
            ∧ is_tarfile fs src = false ∧ is_zipfile fs src = false)
      as (? & ? & ? & ?)
      by (unfold isdir, unreadable, is_tarfile, is_zipfile; by rewrite Hstat).
    eauto 6 using prepare_if_archive_other.
  - right; left.
    assert (unreadable fs src = true ∧ isdir fs src = false) as [??]
      by (unfold isdir, unreadable; by rewrite Hstat).
    eauto using prepare_if_archive_unreadable.
  - right; right; right.
    assert (isdir fs src = false ∧ unreadable fs src = false
            ∧ is_tarfile fs src = false ∧ is_zipfile fs src = false)
      as (? & ? & ? & ?)
      by (unfold isdir, unreadable, is_tarfile, is_zipfile; by rewrite Hstat).
    eauto 6 using prepare_if_archive_other.
Qed.

(** What an archive branch does, whatever the archive. *)
Lemma extraction_effects (r : reading member) (broken : exception)
    (fs : FS) (log : list event) :
  ∃ (res : step (option string)) (fs' : FS) (written : list member),
    extraction r broken (fs, log)
    = (res, (fs', log ++ Created (mkdtemp_name fs)
                      :: Extracted (mkdtemp_name fs) (inside_names written)
                      :: (Wrote <$> outside_paths written)))
    ∧ (res = Ret (Some (mkdtemp_name fs)) ∨ ∃ exn, res = Exit (Uncaught exn))
    ∧ isdir fs' (mkdtemp_name fs) = true
    ∧ (∀ q, isdir fs q = true → isdir fs' q = true)
    ∧ (∀ q, is_Some (fs !! q) → is_Some (fs' !! q))
    ∧ (∀ q, fs' !! q ≠ fs !! q →
            q = mkdtemp_name fs ∨ Outside q ∈ reading_members r).
Proof.
  unfold extraction. cbn [fst snd].
  destruct (unpack _ _ _) as [[error fs'] written] eqn:Hunpack.
  apply unpack_effects in Hunpack as (Hdir & Hsome & Hframe).
  eexists _, fs', written. split; [done|].
  split. { destruct error; [eauto|]. destruct (damaged r); eauto. }
  split. { apply Hdir. unfold isdir.
           by rewrite stat_insert_eq by apply mkdtemp_name_nonempty. }
  split.
  { intros q Hq. apply Hdir. unfold isdir.
    rewrite stat_insert_ne; [done|]. apply mkdtemp_name_ne.
    apply isdir_true in Hq as [_ [entries ->]]. eauto. }
  split.
  { intros q Hq. apply Hsome. rewrite lookup_insert_ne; [done|].
    by apply mkdtemp_name_ne. }
  intros q Hq. destruct (decide (q = mkdtemp_name fs)) as [->|Hne]; [by left|].
  apply Hframe. by rewrite lookup_insert_ne.
Qed.

(** *** The clean-up before each exit of [main] *)

Lemma rmtree_cases (q : string) (fs fs' : FS) (log log' : list event)
    (r : step unit) :
  rmtree (Some q) (fs, log) = (r, (fs', log')) →
  (r = Ret () ∧ isdir fs q = true ∧ rmtree_stuck fs q = None
   ∧ fs' = delete q fs ∧ log' = log ++ [Removed q])
  ∨ ((∃ exn, r = Exit (Uncaught exn)) ∧ log' = log
     ∧ ∀ q', q' ≠ q → fs' !! q' = fs !! q').
Proof.
  unfold rmtree, raise, isdir.
  destruct (stat fs q) as [[entries|tar zip|]|] eqn:Hstat;
    [|intros [= <- <- <-]; right; eauto..].
  destruct (rmtree_stuck fs q) as [[exn remaining]|];
    intros [= <- <- <-]; [right|left; by eauto].
  split; [eauto|]. split; [done|]. intros q' Hne. by rewrite lookup_insert_ne.
Qed.

(** What the clean-up does, through or not. *)
Lemma cleanup_cases (d s b : string) (fs fs' : FS) (log log' : list event)
    (r : step unit) :
  cleanup (Some d) s b (fs, log) = (r, (fs', log')) →
  ∃ added,
    log' = log ++ added
    ∧ (∀ e, e ∈ added → e = Removed b ∨ (e = Removed d ∧ d ≠ s))
    ∧ (∀ q, q ≠ b → d = s ∨ q ≠ d → fs' !! q = fs !! q)
    ∧ ((r = Ret () ∧ Removed b ∈ added ∧ (d ≠ s → Removed d ∈ added)
        ∧ fs' !! b = None ∧ (d ≠ s → fs' !! d = None))
       ∨ ∃ exn, r = Exit (Uncaught exn)).
Proof.
  unfold cleanup. case_bool_decide as Hds.
  - assert (d ≠ s) as Hne by congruence. unfold bind at 1.
    destruct (rmtree (Some d) (fs, log)) as [r1 [fs1 log1]] eqn:Hfirst.
    apply rmtree_cases in Hfirst
      as [(-> & _ & _ & -> & ->)|([exn ->] & -> & Hframe)].
    + destruct (rmtree (Some b) (delete d fs, log ++ [Removed d]))
        as [r2 [fs2 log2]] eqn:Hsecond.
      intros [= <- <- <-].
      apply rmtree_cases in Hsecond
        as [(-> & _ & _ & -> & ->)|([exn ->] & -> & Hframe)].
      * exists [Removed d; Removed b]. rewrite <-app_assoc.
        split; [done|]. split.
        { intros e [->|[->|[]%elem_of_nil]%elem_of_cons]%elem_of_cons; auto. }
        split.
        { intros q Hqb [?|Hqd]; [done|].
          by rewrite lookup_delete_ne, lookup_delete_ne. }
        left. split; [done|]. split; [set_solver|]. split; [set_solver|].
        split; [apply lookup_delete_eq|]. intros _.
        destruct (decide (b = d)) as [->|Hbd]; [apply lookup_delete_eq|].
        rewrite lookup_delete_ne by done. apply lookup_delete_eq.
      * exists [Removed d]. split; [done|]. split.
        { intros e [->|[]%elem_of_nil]%elem_of_cons. auto. }
        split.
        { intros q Hqb [?|Hqd]; [done|].
          by rewrite Hframe, lookup_delete_ne. }
        right. eauto.
    + intros [= <- <- <-]. exists []. rewrite app_nil_r.
      split; [done|]. split; [by intros e []%elem_of_nil|].
      split; [|right; eauto].
      intros q Hqb [?|Hqd]; [done|]. by apply Hframe.
  - assert (d = s) as Hds' by congruence.
    run. intros Hsecond.
    apply rmtree_cases in Hsecond
      as [(-> & _ & _ & -> & ->)|([exn ->] & -> & Hframe)].
    + exists [Removed b]. split; [done|]. split.
      { intros e [->|[]%elem_of_nil]%elem_of_cons. auto. }
      split. { intros q Hqb _. by rewrite lookup_delete_ne. }
      left. split; [done|]. split; [set_solver|]. split; [done|].
      split; [apply lookup_delete_eq|done].
    + exists []. rewrite app_nil_r.
      split; [done|]. split; [by intros e []%elem_of_nil|].
      split; [|right; eauto]. intros q Hqb _. by apply Hframe.
Qed.

(** Whether [rmtree] raises does not depend on the history. *)
Lemma rmtree_log (path : option string) (fs : FS) (log : list event) :
  rmtree path (fs, log)
  = let '(r, (fs', added)) := rmtree path (fs, []) in (r, (fs', log ++ added)).
Proof.
  unfold rmtree, raise. destruct path as [path|]; [|by rewrite app_nil_r].
  destruct (stat fs path) as [[entries|tar zip|]|]; try by rewrite app_nil_r.
  destruct (rmtree_stuck fs path) as [[exn remaining]|]; [by rewrite app_nil_r|done].
Qed.

Lemma cleanup_log (src_dir : option string) (src build_dir : string)
    (fs : FS) (log : list event) :
  cleanup src_dir src build_dir (fs, log)
  = let '(r, (fs', added)) := cleanup src_dir src build_dir (fs, []) in
    (r, (fs', log ++ added)).
Proof.
  unfold cleanup. destruct (bool_decide (src_dir ≠ Some src)).
  - unfold bind. rewrite (rmtree_log src_dir fs log).
    destruct (rmtree src_dir (fs, [])) as [[[]|o] [fs1 log1]]; [|done].
    rewrite (rmtree_log _ fs1 (log ++ log1)), (rmtree_log _ fs1 log1).
    destruct (rmtree (Some build_dir) (fs1, [])) as [r2 [fs2 log2]].
    by rewrite app_assoc.
  - unfold bind, ret. rewrite (rmtree_log _ fs log).
    by destruct (rmtree (Some build_dir) (fs, [])) as [r2 [fs2 log2]].
Qed.

Lemma cleanup_ok_ret (src_dir : option string) (src build_dir : string)
    (fs : FS) (log : list event) :
  cleanup_ok src_dir src build_dir fs = true →
  ∃ st', cleanup src_dir src build_dir (fs, log) = (Ret (), st').
Proof.
  unfold cleanup_ok. rewrite (cleanup_log _ _ _ fs log).
  destruct (cleanup src_dir src build_dir (fs, [])) as [[[]|o] [fs' added]];
    [eauto|done].
Qed.

Lemma after_cleanup_ok (o : outcome) (src_dir : option string)
    (src build_dir : string) (fs : FS) (log : list event) :
  cleanup_ok src_dir src build_dir fs = true →
  result (after_cleanup o src_dir src build_dir (fs, log)) = o.
Proof.
  intros [[fs' log'] Heq]%(cleanup_ok_ret _ _ _ _ log).
  unfold after_cleanup. by rewrite Heq.
Qed.

(** The run after the clean-up: its history gains only removals, of the
    build directory and of the prepared directory when that is not the
    source; other entries are as they were; and either the clean-up is
    through, both directories are gone and the result is [o], or the
    clean-up raised. *)
Lemma after_cleanup_cases (o : outcome) (d s b : string) (fs : FS)
    (log : list event) :
  ∃ added,
    history (after_cleanup o (Some d) s b (fs, log)) = log ++ added
    ∧ (∀ e, e ∈ added → e = Removed b ∨ (e = Removed d ∧ d ≠ s))
    ∧ (∀ q, q ≠ b → d = s ∨ q ≠ d →
            files_after (after_cleanup o (Some d) s b (fs, log)) !! q = fs !! q)
    ∧ ((result (after_cleanup o (Some d) s b (fs, log)) = o
        ∧ Removed b ∈ added ∧ (d ≠ s → Removed d ∈ added)
        ∧ files_after (after_cleanup o (Some d) s b (fs, log)) !! b = None
        ∧ (d ≠ s →
           files_after (after_cleanup o (Some d) s b (fs, log)) !! d = None))
       ∨ ∃ exn, result (after_cleanup o (Some d) s b (fs, log)) = Uncaught exn).
Proof.
  unfold after_cleanup.
  destruct (cleanup (Some d) s b (fs, log)) as [r [fs' log']] eqn:Hcleanup.
  apply cleanup_cases in Hcleanup as (added & -> & Hevents & Hframe & Hend).
  exists added.
  destruct Hend as [(-> & ? & ? & ? & ?)|[exn ->]]; cbn;
    (split; [done|]; split; [done|]; split; [done|]); [left|right]; eauto.
Qed.
(** *** [main], stage by stage *)

Lemma cleanup_then {A} (k : M A) (src_dir : option string) (src build_dir : string)
    (st : state) :
  bind (if bool_decide (src_dir ≠ Some src) then rmtree src_dir else ret ())
    (λ _, bind (rmtree (Some build_dir)) (λ _, k)) st
  = bind (cleanup src_dir src build_dir) (λ _, k) st.
Proof. unfold cleanup. by rewrite bind_assoc. Qed.

Lemma main_prepare_exit (p : params) (fs fs1 : FS) (log1 : list event) (o : outcome) :
  prepare_if_archive (src p) (fs, []) = (Exit o, (fs1, log1)) →
  main p fs = Run o fs1 log1.
Proof.
  intros Hprepare. unfold main, main_body.
  by erewrite bind_exit_step by exact Hprepare.
Qed.

Lemma main_not_prepared (p : params) (fs fs1 : FS) (log1 : list event) :
  prepare_if_archive (src p) (fs, []) = (Ret None, (fs1, log1)) →
  main p fs = Run (FailJson input_error) fs1 log1.
Proof.
  intros Hprepare. unfold main, main_body.
  run_by ltac:(exact Hprepare).
  cbn [truthy negb]. by erewrite bind_exit_step by reflexivity.
Qed.

(** A run whose source was prepared as [src_dir] makes a build directory and
    goes on as [build] says. *)
Lemma main_prepared (p : params) (fs fs1 : FS) (log1 : list event)
    (src_dir : string) :
  prepare_if_archive (src p) (fs, []) = (Ret (Some src_dir), (fs1, log1)) →
  src_dir ≠ "" →
  main p fs
  = build p src_dir (mkdtemp_name fs1)
      (<[mkdtemp_name fs1 := Dir []]> fs1, log1 ++ [Created (mkdtemp_name fs1)]).
Proof.
  intros Hprepare Hne.
  unfold main, main_body, build.
  run_by ltac:(exact Hprepare). rewrite truthy_Some by done.
  run. run. rewrite truthy_Some by done.
  run. run. cbn [format_s fst snd].
  set (build_dir := mkdtemp_name fs1).
  set (fs2 := <[build_dir := Dir []]> fs1).
  set (configure := create_cmake_command _ _ _ _).
  destruct (run_process configure build_dir fs2)
    as [rc out err fs3|errno msg|] eqn:Hconfigure.
  - run_by ltac:(unfold run_command; by rewrite Hconfigure).
    destruct (bool_decide (rc ≠ 0%Z)).
    { unfold bind at 1. rewrite cleanup_then. unfold bind at 1, after_cleanup.
      by destruct (cleanup _ _ _ _) as [[[]|e] [fs' log']]. }
    run.
    destruct (run_process "make install" build_dir fs3)
      as [rc' out' err' fs4|errno msg|] eqn:Hinstall.
    + run_by ltac:(unfold run_command; by rewrite Hinstall).
      destruct (bool_decide (rc' ≠ 0%Z)).
      { unfold bind at 1. rewrite cleanup_then. unfold bind at 1, after_cleanup.
        by destruct (cleanup _ _ _ _) as [[[]|e] [fs' log']]. }
      run. rewrite cleanup_then. unfold bind at 1, after_cleanup.
      by destruct (cleanup _ _ _ _) as [[[]|e] [fs' log']].
    + by erewrite bind_exit_step by (unfold run_command; by rewrite Hinstall).
    + by erewrite bind_exit_step by (unfold run_command; by rewrite Hinstall).
  - by erewrite bind_exit_step by (unfold run_command; by rewrite Hconfigure).
  - by erewrite bind_exit_step by (unfold run_command; by rewrite Hconfigure).
Qed.

(** What [build] does, however the processes and the clean-up go: it calls
    the configure command in the build directory, after that at most the
    install command there and the removals of the clean-up; and it ends with
    the failure of [run_command] itself, with an exception, or, the clean-up
    through and both directories gone, with success or a build failure. *)
Lemma build_cases (p : params) (d b : string) (fs2 : FS) (log2 : list event) :
  ∃ rest,
    history (build p d b (fs2, log2))
    = log2 ++ Ran (create_cmake_command (cmake p) d (install_dir p) (defines p)) b
              :: rest
    ∧ (∀ e, e ∈ rest →
            e = Ran "make install" b ∨ e = Removed b ∨ (e = Removed d ∧ d ≠ src p))
    ∧ (∀ q, spares q → q ≠ b → d = src p ∨ q ≠ d →
            files_after (build p d b (fs2, log2)) !! q = fs2 !! q)
    ∧ ((∃ errno msg, result (build p d b (fs2, log2)) = CommandFailed errno msg)
       ∨ (∃ exn, result (build p d b (fs2, log2)) = Uncaught exn)
       ∨ ((result (build p d b (fs2, log2)) = ExitJson true (install_dir p)
           ∨ ∃ err, result (build p d b (fs2, log2)) = FailJson (build_failure err))
          ∧ Removed b ∈ rest ∧ (d ≠ src p → Removed d ∈ rest)
          ∧ files_after (build p d b (fs2, log2)) !! b = None
          ∧ (d ≠ src p → files_after (build p d b (fs2, log2)) !! d = None))).
Proof.
  unfold build. cbn [fst snd].
  set (configure := create_cmake_command _ _ _ _).
  destruct (run_process configure b fs2)
    as [rc out err fs3|errno msg|] eqn:Hconfigure; cycle 1.
  { exists []. cbn. split; [done|]. split; [by intros e []%elem_of_nil|].
    split; [done|]. left. eauto. }
  { exists []. cbn. split; [done|]. split; [by intros e []%elem_of_nil|].
    split; [done|]. right; left. eauto. }
  destruct (bool_decide (rc ≠ 0%Z)).
  { destruct (after_cleanup_cases (FailJson (build_failure err)) d (src p) b fs3
                (log2 ++ [Ran configure b]))
      as (added & Hhistory & Hevents & Hframe & Hend).
    exists added. rewrite Hhistory, <-app_assoc. split; [done|].
    split. { intros e He. destruct (Hevents e He); auto. }
    split. { intros q Hq ??. rewrite Hframe by done. by eapply Hq. }
    destruct Hend as [(-> & ? & ? & ? & ?)|[exn ->]]; [|by eauto].
    right; right. eauto 10. }
  destruct (run_process "make install" b fs3)
    as [rc' out' err' fs4|errno msg|] eqn:Hinstall; cycle 1.
  { exists [Ran "make install" b]. cbn. rewrite <-app_assoc.
    split; [done|]. split.
    { intros e [->|[]%elem_of_nil]%elem_of_cons. auto. }
    split; [|left; by eauto]. intros q Hq ??. by eapply Hq. }
  { exists [Ran "make install" b]. cbn. rewrite <-app_assoc.
    split; [done|]. split.
    { intros e [->|[]%elem_of_nil]%elem_of_cons. auto. }
    split; [|right; left; by eauto]. intros q Hq ??. by eapply Hq. }
  match goal with |- context [after_cleanup ?o _ _ _ (fs4, ?log)] =>
    destruct (after_cleanup_cases o d (src p) b fs4 log)
      as (added & Hhistory & Hevents & Hframe & Hend);
    set (r := after_cleanup o (Some d) (src p) b (fs4, log)) in *
  end.
  exists (Ran "make install" b :: added).
  rewrite Hhistory, <-!app_assoc. split; [done|].
  split.
  { intros e [->|He]%elem_of_cons; [auto|]. destruct (Hevents e He); auto. }
  split.
  { intros q Hq ??. rewrite Hframe by done.
    etrans; [by eapply Hq|by eapply Hq]. }
  destruct Hend as [(-> & ? & ? & ? & ?)|[exn ->]]; [|by eauto].
  right; right. split; [destruct (bool_decide (rc' ≠ 0%Z)); eauto|].
  split; [by right|]. split; [|done]. intros ?. right. auto.
Qed.

(** A path [prepare_if_archive] returns is a non-empty path of a directory;
    it is the source, with nothing done, or the directory made for an
    archive, and then not the source. *)
Lemma prepare_if_archive_some (fs fs1 : FS) (log log1 : list event)
    (src src_dir : string) :
  prepare_if_archive src (fs, log) = (Ret (Some src_dir), (fs1, log1)) →
  src_dir ≠ "" ∧ isdir fs1 src_dir = true
  ∧ ((src_dir = src ∧ isdir fs src = true ∧ fs1 = fs ∧ log1 = log)
     ∨ (src_dir = mkdtemp_name fs ∧ src_dir ≠ src ∧ isdir fs src = false
        ∧ is_Some (fs !! src)
        ∧ (∀ q, isdir fs q = true → isdir fs1 q = true)
        ∧ (∀ q, is_Some (fs !! q) → is_Some (fs1 !! q))
        ∧ ∃ written,
            log1 = log ++ Created src_dir :: Extracted src_dir (inside_names written)
                          :: (Wrote <$> outside_paths written))).
Proof.
  intros Hprepare.
  destruct (prepare_if_archive_cases fs log src)
    as [[Hdir Heq]|[(_ & _ & Heq)|[(r & broken & _ & Hdir & _ & _ & Hsrc & Heq)
                                  |(_ & _ & _ & _ & Heq)]]];
    rewrite Heq in Hprepare; try done.
  - injection Hprepare as <- <- <-.
    apply isdir_true in Hdir as Hsrc. destruct Hsrc as [Hne _]. auto 10.
  - destruct (extraction_effects r broken fs log)
      as (res & fs' & written & Heq' & Hres & Hnew & Hdirs & Hsome & _).
    rewrite Heq' in Hprepare. injection Hprepare as -> <- <-.
    destruct Hres as [[= ->]|[exn [=]]].
    split; [apply mkdtemp_name_nonempty|]. split; [done|]. right.
    split; [done|]. split; [by apply mkdtemp_name_ne|]. eauto 10.
Qed.

(** ** The claims about a run *)


(** C7: when the source is a directory that was there before the run, the
    run never removes it: its history holds no removal of it, whatever it
    removed it had created, on a path unused before; and if the processes it
    starts leave the directory alone it is still there afterwards with what
    it held. *)
Theorem main_keeps_source_dir (p : params) (fs : FS) :
  isdir fs (src p) = true →
  (Removed (src p) ∉ history (main p fs))
  ∧ (spares (src p) →
     isdir (files_after (main p fs)) (src p) = true
     ∧ files_after (main p fs) !! src p = fs !! src p)
  ∧ ∀ path, Removed path ∈ history (main p fs) →
            Created path ∈ history (main p fs) ∧ fs !! path = None.
Proof.
  intros Hdir.
  pose proof (isdir_true _ _ Hdir) as [Hne [entries Hlookup]].
  rewrite (main_prepared p fs fs [] (src p))
    by (by apply prepare_if_archive_dir || done).
  cbn [app].
  destruct (build_cases p (src p) (mkdtemp_name fs)
              (<[mkdtemp_name fs := Dir []]> fs) [Created (mkdtemp_name fs)])
    as (rest & -> & Hevents & Hframe & _).
  assert (mkdtemp_name fs ≠ src p) as Hfresh by (apply mkdtemp_name_ne; eauto).
  assert (∀ path, Removed path ∈ rest → path = mkdtemp_name fs) as Hremoved.
  { intros path [[=]|[[=]|[[=] ?]]]%Hevents; done. }
  split; [|split].
  - cbn. intros [[=]|[[=]|Hin%Hremoved]%elem_of_cons]%elem_of_cons. done.
  - intros Hspares.
    assert (files_after (build p (src p) (mkdtemp_name fs)
                           (<[mkdtemp_name fs := Dir []]> fs,
                            [Created (mkdtemp_name fs)])) !! src p = fs !! src p)
      as Heq.
    { rewrite Hframe by auto. by rewrite lookup_insert_ne. }
    split; [|done]. unfold isdir. rewrite stat_lookup, Heq, Hlookup; done.
  - cbn. intros path [[=]|[[=]|Hin%Hremoved]%elem_of_cons]%elem_of_cons.
    subst path. split; [by left|apply mkdtemp_name_fresh].
Qed.

(** X13: when the configure process exits with a nonzero code the run fails,
    and its message is the fixed text followed by the diagnostic stream of
    that process, whatever the install process would do; when the configure
    process exits with zero and the install process with a nonzero code, the
    message is the same text followed by the diagnostic stream of the install
    process.  (The clean-up raising nothing in both cases.) *)
Theorem main_build_failure (p : params) (fs fs1 : FS) (log1 : list event)
    (src_dir : string) :
  prepare_if_archive (src p) (fs, []) = (Ret (Some src_dir), (fs1, log1)) →
  let build_dir := mkdtemp_name fs1 in
  let fs2 := <[build_dir := Dir []]> fs1 in
  let configure :=
    create_cmake_command (cmake p) src_dir (install_dir p) (defines p) in
  (∀ rc out err fs3,
     run_process configure build_dir fs2 = Exited rc out err fs3 →
     rc ≠ 0%Z →
     cleanup_ok (Some src_dir) (src p) build_dir fs3 = true →
     result (main p fs) = FailJson (build_failure err))
  ∧ (∀ out err fs3 rc' out' err' fs4,
       run_process configure build_dir fs2 = Exited 0 out err fs3 →
       run_process "make install" build_dir fs3 = Exited rc' out' err' fs4 →
       rc' ≠ 0%Z →
       cleanup_ok (Some src_dir) (src p) build_dir fs4 = true →
       result (main p fs) = FailJson (build_failure err')).
Proof.
  intros Hprepare build_dir fs2 configure.
  pose proof (prepare_if_archive_some _ _ _ _ _ _ Hprepare) as [Hne _].
  rewrite (main_prepared p fs fs1 log1 src_dir Hprepare Hne).
  unfold build. cbn [fst snd]. fold build_dir fs2 configure.
  split.
  - intros rc out err fs3 -> Hrc Hok.
    rewrite bool_decide_eq_true_2 by done. by apply after_cleanup_ok.
  - intros out err fs3 rc' out' err' fs4 -> -> Hrc Hok.
    rewrite bool_decide_eq_false_2 by (by intros []).
    rewrite after_cleanup_ok by done. by rewrite bool_decide_eq_true_2.
Qed.


(** Extraction of a sound archive whose members all stay inside. *)
Lemma extraction_sound_inside (names : list string) (broken : exception)
    (fs : FS) (log : list event) :
  extraction (Sound (Inside <$> names)) broken (fs, log)
  = (Ret (Some (mkdtemp_name fs)),
     (<[mkdtemp_name fs := Dir names]> fs,
      log ++ [Created (mkdtemp_name fs); Extracted (mkdtemp_name fs) names])).
Proof.
  unfold extraction. cbn [fst snd reading_members damaged].
  rewrite (unpack_inside _ names [])
    by (apply stat_insert_eq, mkdtemp_name_nonempty).
  by rewrite insert_insert_eq, inside_names_fmap, outside_paths_fmap.
Qed.


(** C9: a regular file that reads both as a tar archive and as a zip
    archive is extracted as a tar archive: the directory prepared from it
    holds the members [tarfile] reads, and not those [zipfile] reads when
    the two differ. *)
Theorem prepare_if_archive_tar_before_zip (fs : FS) (log : list event)
    (src : string) (tar_members zip_members : list string) :
  stat fs src = Some (archive_file (Some tar_members) (Some zip_members)) →
  let result := mkdtemp_name fs in
  prepare_if_archive src (fs, log)
  = (Ret (Some result),
     (<[result := Dir tar_members]> fs,
      log ++ [Created result; Extracted result tar_members]))
  ∧ (tar_members ≠ zip_members →
     prepare_if_archive src (fs, log)
     ≠ (Ret (Some result),
        (<[result := Dir zip_members]> fs,
         log ++ [Created result; Extracted result zip_members]))).
Proof.
  intros Hstat result.
  rewrite (prepare_if_archive_tar fs log src _ _ Hstat), extraction_sound_inside.
  split; [done|].
  intros Hne [= Hfs _]. apply Hne.
  apply (f_equal (λ fs', fs' !! result)) in Hfs.
  rewrite !lookup_insert_eq in Hfs. by injection Hfs.
Qed.

(** How a run can end: with the input error, with what [build] ends with, or
    with an exception raised while the source is prepared. *)
Lemma main_results (p : params) (fs : FS) :
  result (main p fs) = FailJson input_error
  ∨ (∃ exn, result (main p fs) = Uncaught exn)
  ∨ (∃ errno msg, result (main p fs) = CommandFailed errno msg)
  ∨ result (main p fs) = ExitJson true (install_dir p)
  ∨ ∃ err, result (main p fs) = FailJson (build_failure err).
Proof.
  destruct (prepare_if_archive (src p) (fs, [])) as [[[d|]|o] [fs1 log1]] eqn:Hprepare.
  - pose proof (prepare_if_archive_some _ _ _ _ _ _ Hprepare) as [Hne _].
    rewrite (main_prepared p fs fs1 log1 d Hprepare Hne).
    destruct (build_cases p d (mkdtemp_name fs1)
                (<[mkdtemp_name fs1 := Dir []]> fs1)
                (log1 ++ [Created (mkdtemp_name fs1)]))
      as (rest & _ & _ & _ & [?|[?|[[?|?] _]]]); auto.
  - rewrite (main_not_prepared p fs fs1 log1 Hprepare). by left.
  - rewrite (main_prepare_exit p fs fs1 log1 o Hprepare). cbn.
    destruct (prepare_if_archive_cases fs [] (src p))
      as [[_ Heq]|[(_ & _ & Heq)|[(r & broken & _ & _ & _ & _ & _ & Heq)
                                 |(_ & _ & _ & _ & Heq)]]];
      rewrite Heq in Hprepare; try done.
    + injection Hprepare as <- <- <-. eauto.
    + destruct (extraction_effects r broken fs [])
        as (res & fs' & written & Heq' & [->|[exn ->]] & _);
        rewrite Heq' in Hprepare; [done|].
      injection Hprepare as <- <- <-. eauto.
Qed.

(** C10: [main] never fails with the location error: [find_root_cmake]
    hands back the directory [prepare_if_archive] returned, and [main] has
    already left when that is not a usable path. *)
Theorem main_location_error_unreachable :
  (∀ (src_dir : string) (st : state),
     find_root_cmake (Some src_dir) st = (Ret (Some src_dir), st))
  ∧ (∀ (p : params) (fs : FS), result (main p fs) ≠ FailJson location_error).
Proof.
  split; [done|]. intros p fs.
  destruct (main_results p fs) as [->|[[exn ->]|[(errno & msg & ->)|[->|[err ->]]]]];
    done.
Qed.

End module.

(** C6: [find_root_cmake] hands back the directory it is given, whatever it
    is, and does nothing else: no search, no change of state. *)
Theorem find_root_cmake_passthrough (src_dir : option string) (st : state) :
  find_root_cmake src_dir st = (Ret src_dir, st).
Proof. reflexivity. Qed.

(** ** The failure message *)

(** The message of a failed build carries the diagnostic stream. *)
Lemma build_failure_contains_err (err : string) :
  contains (build_failure err) err = true.
Proof. apply contains_app_r. Qed.

(** C2: the configure process exits with code 1 and the install process with
    code 2; either way the failure message carries the diagnostic stream of
    the failing process but not its exit code. *)
Theorem main_failure_message_omits_exit_code :
  result (@main (scripted_host (1%Z, "", "CMake Error: no CMakeLists.txt")
                               (0%Z, "", ""))
            (sample_params "/tmp/proj") sample_fs)
  = FailJson "Failed to generate build files, exit code CMake Error: no CMakeLists.txt"
  ∧ contains "Failed to generate build files, exit code CMake Error: no CMakeLists.txt"
      "CMake Error: no CMakeLists.txt" = true
  ∧ contains "Failed to generate build files, exit code CMake Error: no CMakeLists.txt"
      (pretty 1%Z) = false
  ∧ result (@main (scripted_host (0%Z, "", "")
                                 (2%Z, "", "make: *** No rule to make target"))
              (sample_params "/tmp/proj") sample_fs)
    = FailJson "Failed to generate build files, exit code make: *** No rule to make target"
  ∧ contains "Failed to generate build files, exit code make: *** No rule to make target"
      (pretty 2%Z) = false.
Proof. repeat split; vm_compute; reflexivity. Qed.

(** ** The exit [main] does not clean up before *)

(** C1: the source is a tar archive and the configure executable is not
    there.  [run_command] leaves through its own [fail_json], and the
    directory the archive was extracted into and the build directory are
    both still there when the run reports its result: nothing was removed. *)
Theorem main_archive_left_behind :
  @main missing_cmake_host
     {| src := "/tmp/proj.tar.gz"; defines := None;
        install_dir := "/tmp/out"; cmake := "/opt/cmake" |}
     sample_fs
  = Run (CommandFailed 2 "[Errno 2] No such file or directory: b'/opt/cmake'")
      (<["/tmp/tmp0" := Dir []]>
         (<["/tmp/tmp" := Dir ["CMakeLists.txt"; "main.c"]]> sample_fs))
      [Created "/tmp/tmp"; Extracted "/tmp/tmp" ["CMakeLists.txt"; "main.c"];
       Created "/tmp/tmp0";
       Ran "/opt/cmake -DCMAKE_INSTALL_PREFIX=/tmp/out /tmp/tmp" "/tmp/tmp0"]
  ∧ isdir (<["/tmp/tmp0" := Dir []]>
             (<["/tmp/tmp" := Dir ["CMakeLists.txt"; "main.c"]]> sample_fs))
      "/tmp/tmp" = true
  ∧ isdir (<["/tmp/tmp0" := Dir []]>
             (<["/tmp/tmp" := Dir ["CMakeLists.txt"; "main.c"]]> sample_fs))
      "/tmp/tmp0" = true
  ∧ isdir sample_fs "/tmp/tmp" = false
  ∧ isdir sample_fs "/tmp/tmp0" = false.
Proof. repeat split; vm_compute; reflexivity. Qed.

(** ** The claims on the sample filesystem *)


Lemma main_keeps_source_dir_sample :
  let host := scripted_host (0%Z, "", "") (2%Z, "", "make: error") in
  let p := sample_params "/tmp/proj" in
  (Removed (src p) ∉ history (@main host p sample_fs))
  ∧ (@spares host (src p) →
     isdir (files_after (@main host p sample_fs)) (src p) = true
     ∧ files_after (@main host p sample_fs) !! src p = sample_fs !! src p)
  ∧ ∀ path, Removed path ∈ history (@main host p sample_fs) →
            Created path ∈ history (@main host p sample_fs)
            ∧ sample_fs !! path = None.
Proof.
  intros host p.
  apply (@main_keeps_source_dir host p sample_fs).
  vm_compute. reflexivity.
Defined.


Lemma prepare_if_archive_tar_before_zip_sample :
  let host := scripted_host (0%Z, "", "") (0%Z, "", "") in
  let result := @mkdtemp_name host sample_fs in
  @prepare_if_archive host "/tmp/polyglot" (sample_fs, [])
  = (Ret (Some result),
     (<[result := Dir ["from-tar"]]> sample_fs,
      [] ++ [Created result; Extracted result ["from-tar"]]))
  ∧ (["from-tar"] ≠ ["from-zip"] →
     @prepare_if_archive host "/tmp/polyglot" (sample_fs, [])
     ≠ (Ret (Some result),
        (<[result := Dir ["from-zip"]]> sample_fs,
         [] ++ [Created result; Extracted result ["from-zip"]]))).
Proof.
  intros host.
  apply (@prepare_if_archive_tar_before_zip host sample_fs [] "/tmp/polyglot"
           ["from-tar"] ["from-zip"]).
  vm_compute. reflexivity.
Defined.

Lemma main_build_failure_sample :
  result (@main (scripted_host (0%Z, "", "") (2%Z, "", "make: error"))
            (sample_params "/tmp/proj") sample_fs)
  = FailJson (build_failure "make: error").
Proof.
  refine (proj2 (@main_build_failure
                   (scripted_host (0%Z, "", "") (2%Z, "", "make: error"))
                   (sample_params "/tmp/proj") sample_fs sample_fs [] "/tmp/proj" _)
            "" "" _ 2%Z "" "make: error" _ _ _ _ _).
  - vm_compute. reflexivity.
  - vm_compute. reflexivity.
  - vm_compute. reflexivity.
  - discriminate.
  - vm_compute. reflexivity.
Defined.

(** The exits of a run on an archive and on a directory. *)
Example sample_run_tar_success :
  @main (scripted_host (0%Z, "", "") (0%Z, "", ""))
    (sample_params "/tmp/proj.tar.gz") sample_fs
  = Run (ExitJson true "/tmp/out") sample_fs
      [Created "/tmp/tmp"; Extracted "/tmp/tmp" ["CMakeLists.txt"; "main.c"];
       Created "/tmp/tmp0";
       Ran "cmake -DCMAKE_INSTALL_PREFIX=/tmp/out /tmp/tmp" "/tmp/tmp0";
       Ran "make install" "/tmp/tmp0";
       Removed "/tmp/tmp"; Removed "/tmp/tmp0"].
Proof. vm_compute. reflexivity. Qed.

Example sample_run_tar_configure_failure :
  @main (scripted_host (1%Z, "", "CMake Error") (0%Z, "", ""))
    (sample_params "/tmp/proj.tar.gz") sample_fs
  = Run (FailJson "Failed to generate build files, exit code CMake Error") sample_fs
      [Created "/tmp/tmp"; Extracted "/tmp/tmp" ["CMakeLists.txt"; "main.c"];
       Created "/tmp/tmp0";
       Ran "cmake -DCMAKE_INSTALL_PREFIX=/tmp/out /tmp/tmp" "/tmp/tmp0";
       Removed "/tmp/tmp"; Removed "/tmp/tmp0"].
Proof. vm_compute. reflexivity. Qed.

Example sample_run_zip_install_failure :
  @main (scripted_host (0%Z, "", "") (2%Z, "", "make: error"))
    (sample_params "/tmp/proj.zip") sample_fs
  = Run (FailJson "Failed to generate build files, exit code make: error") sample_fs
      [Created "/tmp/tmp"; Extracted "/tmp/tmp" ["CMakeLists.txt"; "main.c"];
       Created "/tmp/tmp0";
       Ran "cmake -DCMAKE_INSTALL_PREFIX=/tmp/out /tmp/tmp" "/tmp/tmp0";
       Ran "make install" "/tmp/tmp0";
       Removed "/tmp/tmp"; Removed "/tmp/tmp0"].
Proof. vm_compute. reflexivity. Qed.

Example sample_run_dir_installs :
  @main installing_host (sample_params "/tmp/proj") sample_fs
  = Run (ExitJson true "/tmp/out") (<["/tmp/out" := Dir ["bin"]]> sample_fs)
      [Created "/tmp/tmp";
       Ran "cmake -DCMAKE_INSTALL_PREFIX=/tmp/out /tmp/proj" "/tmp/tmp";
       Ran "make install" "/tmp/tmp";
       Removed "/tmp/tmp"].
Proof. vm_compute. reflexivity. Qed.

Example sample_run_missing_source :
  @main (scripted_host (0%Z, "", "") (0%Z, "", ""))
    (sample_params "/tmp/absent") sample_fs
  = Run (FailJson "Source is not a directory or known archive format") sample_fs [].
Proof. vm_compute. reflexivity. Qed.

Example sample_run_escaping_member :
  @main (scripted_host (0%Z, "", "") (0%Z, "", ""))
    (sample_params "/tmp/slip.tar") sample_fs
  = Run (ExitJson true "/tmp/out") sample_fs
      [Created "/tmp/tmp"; Extracted "/tmp/tmp" ["CMakeLists.txt"];
       Wrote "/tmp/notes.txt"; Created "/tmp/tmp0";
       Ran "cmake -DCMAKE_INSTALL_PREFIX=/tmp/out /tmp/tmp" "/tmp/tmp0";
       Ran "make install" "/tmp/tmp0";
       Removed "/tmp/tmp"; Removed "/tmp/tmp0"].
Proof. vm_compute. reflexivity. Qed.

Example sample_command_no_defines :
  create_cmake_command "cmake" "/src" "/opt/x" None
  = "cmake -DCMAKE_INSTALL_PREFIX=/opt/x /src".
Proof. reflexivity. Qed.

Example sample_command_empty_defines :
  create_cmake_command "cmake" "/src" "/opt/x" (Some [])
  = "cmake -DCMAKE_INSTALL_PREFIX=/opt/x /src".
Proof. reflexivity. Qed.

(** * Further properties of the module's functions *)

Section prepare.
Context `{Host}.


(** X2: a path returned by [prepare_if_archive] is a non-empty path of a
    directory that exists when it returns, so [main] finds it truthy. *)
Theorem prepare_if_archive_yields_directory (fs fs' : FS) (log log' : list event)
    (src src_dir : string) :
  prepare_if_archive src (fs, log) = (Ret (Some src_dir), (fs', log')) →
  src_dir ≠ "" ∧ isdir fs' src_dir = true ∧ truthy (Some src_dir) = true.
Proof.
  intros (Hne & Hdir & _)%prepare_if_archive_some. auto using truthy_Some.
Qed.



(** X4: a file that reads as a zip archive and not as a tar archive is
    extracted with [zipfile]: a fresh directory is made and holds the members
    [zipfile] reads. *)
Theorem prepare_if_archive_zip_only (fs : FS) (log : list event) (src : string)
    (members : list string) :
  stat fs src = Some (archive_file None (Some members)) →
  fs !! mkdtemp_name fs = None
  ∧ prepare_if_archive src (fs, log)
    = (Ret (Some (mkdtemp_name fs)),
       (<[mkdtemp_name fs := Dir members]> fs,
        log ++ [Created (mkdtemp_name fs); Extracted (mkdtemp_name fs) members])).
Proof.
  intros Hstat. split; [apply mkdtemp_name_fresh|].
  rewrite (prepare_if_archive_zip fs log src _ Hstat). cbn [zip_as_members].
  apply extraction_sound_inside.
Qed.

(** X5: a source that is a directory is used in place: it is returned as it
    was given, nothing is created and nothing is copied. *)
Theorem prepare_if_archive_directory_in_place (fs : FS) (log : list event)
    (src : string) :
  isdir fs src = true →
  prepare_if_archive src (fs, log) = (Ret (Some src), (fs, log)).
Proof.
  intros Hdir.
  destruct (prepare_if_archive_cases fs log src)
    as [[_ Heq]|[(_ & Hnot & _)|[(r & broken & _ & Hnot & _)|(Hnot & _)]]];
    [done|congruence..].
Qed.


End prepare.

Section runs.
Context `{Host}.

(** X7: a run changes nothing but what it made: an entry that the two
    processes leave as it is, that is no directory created by the run, and
    that no escaping member of the archive resolves to, is after the run what
    it was before, however the run ends. *)
Theorem main_leaves_other_files (p : params) (fs : FS) (q : string) :
  spares q →
  Created q ∉ history (main p fs) →
  (∀ r broken, used_reading fs (src p) = Some (r, broken) →
               Outside q ∉ reading_members r) →
  files_after (main p fs) !! q = fs !! q.
Proof.
  intros Hspares Hnew Hinside.
  assert (∀ res fs1 log1,
            prepare_if_archive (src p) (fs, []) = (res, (fs1, log1)) →
            fs1 !! q = fs !! q ∨ Created q ∈ log1) as Hframe.
  { intros res fs1 log1 Hprepare.
    destruct (prepare_if_archive_cases fs [] (src p))
      as [[_ Heq]|[(_ & _ & Heq)|[(r & broken & Hused & _ & _ & _ & _ & Heq)
                                 |(_ & _ & _ & _ & Heq)]]];
      rewrite Heq in Hprepare; try (injection Hprepare as <- <- <-; by left).
    destruct (extraction_effects r broken fs [])
      as (res' & fs' & written & Heq' & _ & _ & _ & _ & Hchanged).
    rewrite Heq' in Hprepare. injection Hprepare as <- <- <-.
    destruct (decide (fs' !! q = fs !! q)) as [?|[->|Hout]%Hchanged]; [by left| |].
    - right. by left.
    - by destruct (Hinside r broken Hused). }
  destruct (prepare_if_archive (src p) (fs, [])) as [[[d|]|o] [fs1 log1]] eqn:Hprepare.
  - pose proof (prepare_if_archive_some _ _ _ _ _ _ Hprepare)
      as (Hne & _ & Horigin).
    rewrite (main_prepared p fs fs1 log1 d Hprepare Hne) in *.
    set (b := mkdtemp_name fs1) in *.
    destruct (build_cases p d b (<[b := Dir []]> fs1) (log1 ++ [Created b]))
      as (rest & Hhistory & _ & Hbuild & _).
    rewrite Hhistory in Hnew.
    rewrite !elem_of_app, !elem_of_cons, !elem_of_nil in Hnew.
    assert (q ≠ b) as Hqb by (intros ->; tauto).
    assert (d = src p ∨ q ≠ d) as Hqd.
    { destruct Horigin as [(-> & _)|(_ & _ & _ & _ & _ & _ & written & ->)];
        [by left|right]. intros ->. apply Hnew. left; left. by left. }
    rewrite Hbuild, lookup_insert_ne by done.
    destruct (Hframe _ _ _ eq_refl); tauto.
  - rewrite (main_not_prepared p fs fs1 log1 Hprepare) in *. cbn in *.
    destruct (Hframe _ _ _ eq_refl); tauto.
  - rewrite (main_prepare_exit p fs fs1 log1 o Hprepare) in *. cbn in *.
    destruct (Hframe _ _ _ eq_refl); tauto.
Qed.

(** X8: a run removes only directories it created, each on a path that was
    unused before; and when it ends through one of [main]'s own exits,
    [exit_json] or [fail_json], every directory it created has been removed
    and is gone from the filesystem it leaves. *)
Theorem main_removes_what_it_creates (p : params) (fs : FS) :
  (∀ path, Removed path ∈ history (main p fs) → Created path ∈ history (main p fs))
  ∧ (∀ path, Created path ∈ history (main p fs) → fs !! path = None)
  ∧ ((∃ c d, result (main p fs) = ExitJson c d)
     ∨ (∃ msg, result (main p fs) = FailJson msg) →
     ∀ path, Created path ∈ history (main p fs) →
             Removed path ∈ history (main p fs)
             ∧ files_after (main p fs) !! path = None).
Proof.
  destruct (prepare_if_archive (src p) (fs, [])) as [[[d|]|o] [fs1 log1]] eqn:Hprepare.
  - pose proof (prepare_if_archive_some _ _ _ _ _ _ Hprepare)
      as (Hne & _ & Horigin).
    rewrite (main_prepared p fs fs1 log1 d Hprepare Hne).
    set (b := mkdtemp_name fs1).
    destruct (build_cases p d b (<[b := Dir []]> fs1) (log1 ++ [Created b]))
      as (rest & Hhistory & Hevents & _ & Hend).
    rewrite Hhistory.
    assert (∀ path, Created path ∉ rest) as Hrest.
    { intros path [[=]|[[=]|[[=] _]]]%Hevents. }
    assert (fs1 !! b = None) as Hfresh by apply mkdtemp_name_fresh.
    assert (fs !! b = None
            ∧ (∀ path, Created path ∈ log1 → path = d ∧ d ≠ src p ∧ fs !! d = None)
            ∧ (d ≠ src p → Created d ∈ log1)) as (Hb & Hlog1 & Hd).
    { destruct Horigin as [(-> & _ & -> & ->)
                          |(-> & Hds & _ & _ & _ & Hsome & written & ->)].
      - split; [done|]. split; [by intros path []%elem_of_nil|done].
      - split.
        { destruct (fs !! b) eqn:Hfsb; [|done].
          destruct (Hsome b) as [x Hx]; [eauto|]. congruence. }
        split; [|intros _; by left].
        intros path [[= ->]|[[=]|(w & [=] & _)%list_elem_of_fmap]%elem_of_cons]%elem_of_cons.
        split; [done|]. split; [done|]. apply mkdtemp_name_fresh. }
    split; [|split].
    + intros path.
      rewrite !elem_of_app, !elem_of_cons, !elem_of_nil.
      intros [[Hin|[[=]|[]]]|[[=]|Hin]].
      * destruct Horigin as [(_ & _ & _ & ->)|(_ & _ & _ & _ & _ & _ & written & ->)].
        { by apply elem_of_nil in Hin. }
        apply elem_of_cons in Hin as [[=]|[[=]|(w & [=] & _)%list_elem_of_fmap]%elem_of_cons].
      * apply Hevents in Hin as [[=]|[[= ->]|[[= ->] Hds]]]; auto.
    + intros path.
      rewrite !elem_of_app, !elem_of_cons, !elem_of_nil.
      intros [[Hin|[[= ->]|[]]]|[[=]|Hin]]; [by apply Hlog1 in Hin as (-> & _ & ?)|done|].
      by apply Hrest in Hin.
    + intros Hexit.
      destruct Hend as [(errno & msg & Hres)|[[exn Hres]|(_ & Hb' & Hd' & Hgone & Hgone')]].
      { rewrite Hres in Hexit. by destruct Hexit as [(? & ? & ?)|[? ?]]. }
      { rewrite Hres in Hexit. by destruct Hexit as [(? & ? & ?)|[? ?]]. }
      intros path.
      rewrite !elem_of_app, !elem_of_cons, !elem_of_nil.
      intros [[Hin|[[= ->]|[]]]|[[=]|Hin]]; [| |by apply Hrest in Hin].
      * apply Hlog1 in Hin as (-> & Hds & _). auto.
      * auto.
  - rewrite (main_not_prepared p fs fs1 log1 Hprepare). cbn.
    destruct (prepare_if_archive_cases fs [] (src p))
      as [[_ Heq]|[(_ & _ & Heq)|[(r & broken & _ & _ & _ & _ & _ & Heq)
                                 |(_ & _ & _ & _ & Heq)]]];
      rewrite Heq in Hprepare; try done.
    + destruct (extraction_effects r broken fs [])
        as (res & fs' & written & Heq' & [->|[exn ->]] & _);
        by rewrite Heq' in Hprepare.
    + injection Hprepare as <- <-.
      split; [by intros path []%elem_of_nil|].
      split; [by intros path []%elem_of_nil|]. by intros _ path []%elem_of_nil.
  - rewrite (main_prepare_exit p fs fs1 log1 o Hprepare). cbn.
    destruct (prepare_if_archive_cases fs [] (src p))
      as [[_ Heq]|[(_ & _ & Heq)|[(r & broken & _ & _ & _ & _ & _ & Heq)
                                 |(_ & _ & _ & _ & Heq)]]];
      rewrite Heq in Hprepare; try done.
    + injection Hprepare as <- <- <-.
      split; [by intros path []%elem_of_nil|].
      split; [by intros path []%elem_of_nil|]. by intros [(? & ? & ?)|[? ?]].
    + destruct (extraction_effects r broken fs [])
        as (res & fs' & written & Heq' & [->|[exn ->]] & _);
        rewrite Heq' in Hprepare; [done|].
      injection Hprepare as <- <- <-.
      split; [|split; [|by intros [(? & ? & ?)|[? ?]]]].
      * intros path [[=]|[[=]|(w & [=] & _)%list_elem_of_fmap]%elem_of_cons]%elem_of_cons.
      * intros path [[= ->]|[[=]|(w & [=] & _)%list_elem_of_fmap]%elem_of_cons]%elem_of_cons.
        apply mkdtemp_name_fresh.
Qed.

(** X9: when a run reports success, [changed] is true and [install_dir] is
    the install directory it was given; when it fails through [fail_json],
    the message is the input error or the build-failure text followed by a
    diagnostic stream, and no other. *)
Theorem main_outcomes (p : params) (fs : FS) :
  (∀ c d, result (main p fs) = ExitJson c d → c = true ∧ d = install_dir p)
  ∧ (∀ msg, result (main p fs) = FailJson msg →
            msg = input_error ∨ ∃ err, msg = build_failure err).
Proof.
  destruct (main_results p fs) as [->|[[exn ->]|[(errno & msg & ->)|[->|[err ->]]]]];
    split; intros; simplify_eq; eauto.
Qed.


(** X11: for a directory source the build is out of source: the run makes a
    new build directory, which is not the source, and the first thing it
    runs there is the configure command naming the source directory itself
    as the project; whatever it runs after that is [make install] in the
    same directory. *)
Theorem main_directory_build (p : params) (fs : FS) :
  isdir fs (src p) = true →
  let build_dir := mkdtemp_name fs in
  fs !! build_dir = None
  ∧ build_dir ≠ src p
  ∧ ∃ rest,
      history (main p fs)
      = [Created build_dir;
         Ran (create_cmake_command (cmake p) (src p) (install_dir p) (defines p))
           build_dir] ++ rest
      ∧ ∀ cmd cwd, Ran cmd cwd ∈ rest → cmd = "make install" ∧ cwd = build_dir.
Proof.
  intros Hdir build_dir.
  pose proof (isdir_true _ _ Hdir) as [Hne [entries Hlookup]].
  rewrite (main_prepared p fs fs [] (src p))
    by (by apply prepare_if_archive_dir || done).
  destruct (build_cases p (src p) build_dir (<[build_dir := Dir []]> fs)
              ([] ++ [Created build_dir]))
    as (rest & Hhistory & Hevents & _).
  split; [apply mkdtemp_name_fresh|].
  split; [apply mkdtemp_name_ne; eauto|].
  exists rest. split; [done|].
  intros cmd cwd [[= -> ->]|[[=]|[[=] _]]]%Hevents. done.
Qed.

(** X12: for an archive source the project the configure command names is
    the directory the archive was extracted into, never the archive itself,
    and both processes run in a second new directory, distinct from it and
    from the source. *)
Theorem main_archive_build (p : params) (fs : FS)
    (tar zip : option (list string)) :
  stat fs (src p) = Some (archive_file tar zip) →
  is_Some tar ∨ is_Some zip →
  ∃ members,
    let src_dir := mkdtemp_name fs in
    let fs1 := <[src_dir := Dir members]> fs in
    let build_dir := mkdtemp_name fs1 in
    let fs2 := <[build_dir := Dir []]> fs1 in
    src_dir ≠ src p ∧ build_dir ≠ src_dir ∧ build_dir ≠ src p
    ∧ isdir fs2 src_dir = true ∧ isdir fs2 build_dir = true
    ∧ ∃ rest,
        history (main p fs)
        = [Created src_dir; Extracted src_dir members; Created build_dir;
           Ran (create_cmake_command (cmake p) src_dir (install_dir p) (defines p))
             build_dir] ++ rest
        ∧ ∀ cmd cwd, Ran cmd cwd ∈ rest → cmd = "make install" ∧ cwd = build_dir.
Proof.
  intros Hstat Harchive.
  pose proof (stat_Some _ _ _ Hstat) as [_ Hlookup].
  assert (∃ members,
            prepare_if_archive (src p) (fs, [])
            = (Ret (Some (mkdtemp_name fs)),
               (<[mkdtemp_name fs := Dir members]> fs,
                [Created (mkdtemp_name fs); Extracted (mkdtemp_name fs) members])))
    as [members Hprepare].
  { destruct tar as [tar_members|]; [|destruct zip as [zip_members|]].
    - exists tar_members.
      by rewrite (prepare_if_archive_tar fs [] _ _ _ Hstat), extraction_sound_inside.
    - exists zip_members.
      rewrite (prepare_if_archive_zip fs [] _ _ Hstat). cbn [zip_as_members].
      by rewrite extraction_sound_inside.
    - by destruct Harchive as [[? [=]]|[? [=]]]. }
  exists members. intros src_dir fs1 build_dir fs2.
  rewrite (main_prepared p fs fs1 _ src_dir Hprepare)
    by apply mkdtemp_name_nonempty.
  destruct (build_cases p src_dir build_dir fs2
              ([Created src_dir; Extracted src_dir members] ++ [Created build_dir]))
    as (rest & Hhistory & Hevents & _).
  assert (build_dir ≠ src_dir) as Hne.
  { apply mkdtemp_name_ne. unfold fs1. rewrite lookup_insert_eq. eauto. }
  assert (src_dir ≠ src p) as Hne' by (apply mkdtemp_name_ne; eauto).
  split; [done|]. split; [done|]. split.
  { apply mkdtemp_name_ne. unfold fs1. rewrite lookup_insert_ne by done. eauto. }
  split.
  { unfold isdir, fs2, fs1. rewrite stat_insert_ne by done.
    by rewrite stat_insert_eq by apply mkdtemp_name_nonempty. }
  split.
  { unfold isdir, fs2. by rewrite stat_insert_eq by apply mkdtemp_name_nonempty. }
  exists rest. split; [done|].
  intros cmd cwd [[= -> ->]|[[=]|[[=] _]]]%Hevents. done.
Qed.

(** X15: on a regular file that cannot be opened, [is_tarfile] raises and the
    run ends with that [PermissionError], not with the input error; nothing
    has been created. *)
Theorem main_unreadable_source (p : params) (fs : FS) :
  unreadable fs (src p) = true →
  main p fs = Run (Uncaught PermissionError) fs [].
Proof.
  intros Hread. apply main_prepare_exit.
  by apply prepare_if_archive_unreadable.
Qed.


(** X17: when the configure process cannot be started, [run_command] leaves
    through its own [fail_json]: the run ends there, nothing is removed, and
    the build directory and the prepared directory are left as they were. *)
Theorem main_configure_not_started (p : params) (fs fs1 : FS) (log1 : list event)
    (src_dir : string) (errno : Z) (msg : string) :
  prepare_if_archive (src p) (fs, []) = (Ret (Some src_dir), (fs1, log1)) →
  let build_dir := mkdtemp_name fs1 in
  let fs2 := <[build_dir := Dir []]> fs1 in
  let configure :=
    create_cmake_command (cmake p) src_dir (install_dir p) (defines p) in
  run_process configure build_dir fs2 = NotStarted errno msg →
  main p fs
  = Run (CommandFailed errno msg) fs2
      (log1 ++ [Created build_dir; Ran configure build_dir])
  ∧ isdir fs2 build_dir = true ∧ isdir fs2 src_dir = true.
Proof.
  intros Hprepare build_dir fs2 configure Hconfigure.
  pose proof (prepare_if_archive_some _ _ _ _ _ _ Hprepare) as (Hne & Hdir & _).
  rewrite (main_prepared p fs fs1 log1 src_dir Hprepare Hne).
  unfold build. cbn [fst snd]. fold build_dir fs2 configure.
  rewrite Hconfigure, <-app_assoc. split; [done|].
  assert (build_dir ≠ src_dir) as Hbd.
  { apply mkdtemp_name_ne. apply isdir_true in Hdir as [_ [entries ->]]. eauto. }
  split.
  - unfold isdir, fs2. by rewrite stat_insert_eq by apply mkdtemp_name_nonempty.
  - unfold isdir, fs2. rewrite stat_insert_ne by done. exact Hdir.
Qed.

(** X18: when [rmtree] cannot empty the directory an archive was extracted
    into, its error ends the run before the build directory is looked at:
    neither directory is removed. *)
Theorem main_stuck_cleanup (p : params) (fs fs1 fs3 : FS) (log1 : list event)
    (src_dir out err : string) (rc : Z) (exn : exception)
    (remaining : list string) :
  prepare_if_archive (src p) (fs, []) = (Ret (Some src_dir), (fs1, log1)) →
  src_dir ≠ src p →
  let build_dir := mkdtemp_name fs1 in
  let fs2 := <[build_dir := Dir []]> fs1 in
  let configure :=
    create_cmake_command (cmake p) src_dir (install_dir p) (defines p) in
  run_process configure build_dir fs2 = Exited rc out err fs3 →
  rc ≠ 0%Z →
  isdir fs3 src_dir = true →
  rmtree_stuck fs3 src_dir = Some (exn, remaining) →
  main p fs
  = Run (Uncaught exn) (<[src_dir := Dir remaining]> fs3)
      (log1 ++ [Created build_dir; Ran configure build_dir]).
Proof.
  intros Hprepare Hds build_dir fs2 configure Hconfigure Hrc Hdir Hstuck.
  pose proof (prepare_if_archive_some _ _ _ _ _ _ Hprepare) as (Hne & _).
  rewrite (main_prepared p fs fs1 log1 src_dir Hprepare Hne).
  unfold build. cbn [fst snd]. fold build_dir fs2 configure.
  rewrite Hconfigure, bool_decide_eq_true_2 by done.
  unfold after_cleanup, cleanup.
  rewrite bool_decide_eq_true_2 by congruence.
  unfold bind, rmtree, raise.
  apply isdir_stat in Hdir as [entries ->]. rewrite Hstuck.
  by rewrite <-app_assoc.
Qed.

End runs.

(** ** More on the command builder *)

(** An empty defines mapping is as good as none: [if defines:] skips the
    loop for both. *)
Lemma create_cmake_command_empty_defines
    (cmake_path project_dir install_dir : string) :
  create_cmake_command cmake_path project_dir install_dir (Some [])
  = create_cmake_command cmake_path project_dir install_dir None.
Proof. reflexivity. Qed.

(** X14: names and values are spliced into the command as they are, with no
    quoting: a single define whose value goes on with the text of a second
    [-D] flag gives the very command that the two defines give. *)
Theorem create_cmake_command_splices_values
    (cmake_path project_dir install_dir k v k' v' : string) :
  k ≠ k' →
  create_cmake_command cmake_path project_dir install_dir
    (Some [(k, v +:+ " -D" +:+ k' +:+ "=" +:+ v')])
  = create_cmake_command cmake_path project_dir install_dir
      (Some [(k, v); (k', v')]).
Proof.
  intros Hne. unfold create_cmake_command, add_define.
  cbn [dict_truthy dict_keys fmap list_fmap foldl fst dict_get].
  rewrite !String.eqb_refl.
  destruct (String.eqb_spec k k') as [?|_]; [done|].
  by rewrite !string_app_assoc.
Qed.

(** ** The further properties on the sample filesystem *)


Lemma prepare_if_archive_yields_directory_sample :
  "/tmp/tmp" ≠ ""
  ∧ isdir (<["/tmp/tmp" := Dir ["CMakeLists.txt"; "main.c"]]> sample_fs) "/tmp/tmp"
    = true
  ∧ truthy (Some "/tmp/tmp") = true.
Proof.
  apply (@prepare_if_archive_yields_directory
           (scripted_host (0%Z, "", "") (0%Z, "", "")) sample_fs
           (<["/tmp/tmp" := Dir ["CMakeLists.txt"; "main.c"]]> sample_fs)
           [] [Created "/tmp/tmp"; Extracted "/tmp/tmp" ["CMakeLists.txt"; "main.c"]]
           "/tmp/proj.zip" "/tmp/tmp").
  vm_compute. reflexivity.
Defined.


Lemma prepare_if_archive_zip_only_sample :
  let host := scripted_host (0%Z, "", "") (0%Z, "", "") in
  sample_fs !! @mkdtemp_name host sample_fs = None
  ∧ @prepare_if_archive host "/tmp/proj.zip" (sample_fs, [])
    = (Ret (Some (@mkdtemp_name host sample_fs)),
       (<[@mkdtemp_name host sample_fs := Dir ["CMakeLists.txt"; "main.c"]]> sample_fs,
        [] ++ [Created (@mkdtemp_name host sample_fs);
               Extracted (@mkdtemp_name host sample_fs) ["CMakeLists.txt"; "main.c"]])).
Proof.
  intros host.
  apply (@prepare_if_archive_zip_only host sample_fs [] "/tmp/proj.zip"
           ["CMakeLists.txt"; "main.c"]).
  vm_compute. reflexivity.
Defined.

Lemma prepare_if_archive_directory_in_place_sample :
  @prepare_if_archive (scripted_host (0%Z, "", "") (0%Z, "", ""))
    "/tmp/proj" (sample_fs, [])
  = (Ret (Some "/tmp/proj"), (sample_fs, [])).
Proof.
  apply (@prepare_if_archive_directory_in_place
           (scripted_host (0%Z, "", "") (0%Z, "", "")) sample_fs [] "/tmp/proj").
  vm_compute. reflexivity.
Defined.

Lemma main_directory_build_sample :
  let host := scripted_host (0%Z, "", "") (0%Z, "", "") in
  let p := sample_params "/tmp/proj" in
  let build_dir := @mkdtemp_name host sample_fs in
  sample_fs !! build_dir = None
  ∧ build_dir ≠ src p
  ∧ ∃ rest,
      history (@main host p sample_fs)
      = [Created build_dir;
         Ran (create_cmake_command (cmake p) (src p) (install_dir p) (defines p))
           build_dir] ++ rest
      ∧ ∀ cmd cwd, Ran cmd cwd ∈ rest → cmd = "make install" ∧ cwd = build_dir.
Proof.
  intros host p.
  apply (@main_directory_build host p sample_fs).
  vm_compute. reflexivity.
Defined.

Lemma main_archive_build_sample :
  let host := scripted_host (0%Z, "", "") (0%Z, "", "") in
  let p := sample_params "/tmp/proj.tar.gz" in
  ∃ members,
    let src_dir := @mkdtemp_name host sample_fs in
    let fs1 := <[src_dir := Dir members]> sample_fs in
    let build_dir := @mkdtemp_name host fs1 in
    let fs2 := <[build_dir := Dir []]> fs1 in
    src_dir ≠ src p ∧ build_dir ≠ src_dir ∧ build_dir ≠ src p
    ∧ isdir fs2 src_dir = true ∧ isdir fs2 build_dir = true
    ∧ ∃ rest,
        history (@main host p sample_fs)
        = [Created src_dir; Extracted src_dir members; Created build_dir;
           Ran (create_cmake_command (cmake p) src_dir (install_dir p) (defines p))
             build_dir] ++ rest
        ∧ ∀ cmd cwd, Ran cmd cwd ∈ rest → cmd = "make install" ∧ cwd = build_dir.
Proof.
  intros host p.
  apply (@main_archive_build host p sample_fs
           (Some ["CMakeLists.txt"; "main.c"]) None).
  - vm_compute. reflexivity.
  - left. eauto.
Defined.

Lemma create_cmake_command_splices_values_sample :
  create_cmake_command "cmake" "/tmp/proj" "/tmp/out"
    (Some [("A", "1" +:+ " -D" +:+ "B" +:+ "=" +:+ "2")])
  = create_cmake_command "cmake" "/tmp/proj" "/tmp/out"
      (Some [("A", "1"); ("B", "2")]).
Proof.
  apply (create_cmake_command_splices_values
           "cmake" "/tmp/proj" "/tmp/out" "A" "1" "B" "2").
  discriminate.
Defined.

Lemma main_unreadable_source_sample :
  @main (scripted_host (0%Z, "", "") (0%Z, "", ""))
    (sample_params "/tmp/secret") sample_fs
  = Run (Uncaught PermissionError) sample_fs [].
Proof.
  apply (@main_unreadable_source (scripted_host (0%Z, "", "") (0%Z, "", ""))
           (sample_params "/tmp/secret") sample_fs).
  vm_compute. reflexivity.
Defined.


Lemma main_configure_not_started_sample :
  let p := {| src := "/tmp/proj"; defines := None; install_dir := "/tmp/out";
              cmake := "/opt/cmake" |} in
  let build_dir := @mkdtemp_name missing_cmake_host sample_fs in
  let fs2 := <[build_dir := Dir []]> sample_fs in
  let configure :=
    create_cmake_command (cmake p) "/tmp/proj" (install_dir p) (defines p) in
  @main missing_cmake_host p sample_fs
  = Run (CommandFailed 2 "[Errno 2] No such file or directory: b'/opt/cmake'") fs2
      ([] ++ [Created build_dir; Ran configure build_dir])
  ∧ isdir fs2 build_dir = true ∧ isdir fs2 "/tmp/proj" = true.
Proof.
  intros p.
  apply (@main_configure_not_started missing_cmake_host p sample_fs sample_fs []
           "/tmp/proj" 2%Z "[Errno 2] No such file or directory: b'/opt/cmake'").
  - vm_compute. reflexivity.
  - vm_compute. reflexivity.
Defined.

Lemma main_stuck_cleanup_sample :
  let p := sample_params "/tmp/proj.tar.gz" in
  let fs1 := <["/tmp/tmp" := Dir ["CMakeLists.txt"; "main.c"]]> sample_fs in
  let log1 := [Created "/tmp/tmp"; Extracted "/tmp/tmp" ["CMakeLists.txt"; "main.c"]] in
  let build_dir := @mkdtemp_name stuck_host fs1 in
  let fs2 := <[build_dir := Dir []]> fs1 in
  let configure :=
    create_cmake_command (cmake p) "/tmp/tmp" (install_dir p) (defines p) in
  @main stuck_host p sample_fs
  = Run (Uncaught PermissionError) (<["/tmp/tmp" := Dir ["main.c"]]> fs2)
      (log1 ++ [Created build_dir; Ran configure build_dir]).
Proof.
  intros p fs1 log1.
  apply (@main_stuck_cleanup stuck_host p sample_fs fs1
           (<[@mkdtemp_name stuck_host fs1 := Dir []]> fs1) log1
           "/tmp/tmp" "" "CMake Error" 1%Z PermissionError ["main.c"]).
  - vm_compute. reflexivity.
  - discriminate.
  - vm_compute. reflexivity.
  - discriminate.
  - vm_compute. reflexivity.
  - vm_compute. reflexivity.
Defined.

Lemma main_leaves_other_files_sample :
  files_after (@main installing_host (sample_params "/tmp/slip.tar") sample_fs)
    !! "/tmp/proj"
  = sample_fs !! "/tmp/proj".
Proof.
  apply (@main_leaves_other_files installing_host (sample_params "/tmp/slip.tar")
           sample_fs "/tmp/proj").
  - intros cmd cwd fs rc out err after. cbn.
    destruct (String.eqb cmd "make install"); intros [= _ _ _ <-]; [|done].
    by rewrite lookup_insert_ne.
  - vm_compute. intros Hin.
    repeat (apply elem_of_cons in Hin as [[=]|Hin]). by apply elem_of_nil in Hin.
  - intros r broken [= <- _]. cbn. intros Hin.
    repeat (apply elem_of_cons in Hin as [[=]|Hin]). by apply elem_of_nil in Hin.
Defined.
